(** * OpenSquare front end: the orchestration logic of [frontend/App.js]

    A shallow embedding of the React component [App]: its seven state
    cells, the five asynchronous handlers ([checkApiHealth],
    [loadDocuments], [handleSendMessage], [handleFileUpload],
    [loadSampleData]) and the [disabled] attributes of [renderChat].

    Conventions of the embedding.
    - A JavaScript value received from the network is a [jsval]; reading a
      property of [null] or [undefined] throws, as in the language.
    - A string is the UTF-8 encoding of the JavaScript string; the
      literals of the source are copied as they stand in the file.
    - Arithmetic on numbers is binary64 arithmetic: every operation rounds
      its exact result to the nearest double, ties to even.
    - An [async] handler is cut at its single [await]: the part before it
      runs when the handler is called and leaves a [Pending] request that
      remembers the variables the closure captured; the part after it runs
      when the request settles, on the state of that moment.
    - [setX(v)] writes the cell; [setX(prev => ...)] reads the cell at the
      time of the write.  The identifiers [messages] and [inputValue]
      inside a handler are the values of the render the handler was created
      in, that is, the cells at the time the handler was called.
    - [Date.now()] is an input of every handler run. *)

From Stdlib Require Import ZArith NArith List String Ascii Bool Lia.
From Stdlib Require Import QArith Qround Sorted.
Import ListNotations.
Local Open Scope string_scope.
Local Open Scope Z_scope.

(** ** JavaScript values *)

Module Js.

(** JSON-shaped values; an object is its property list, looked up from the
    front.  [JNum z] is the Number nearest to the integer [z]; Numbers
    with a fractional part are not among the values. *)
#[warnings="-register-all"]
Inductive jsval : Type :=
| JUndefined
| JNull
| JBool (b : bool)
| JNum (z : Z)
| JStr (s : string)
| JArr (items : list jsval)
| JObj (props : list (string * jsval)).

Fixpoint assoc (k : string) (ps : list (string * jsval)) : jsval :=
  match ps with
  | [] => JUndefined
  | (k', v) :: ps' => if String.eqb k k' then v else assoc k ps'
  end.

(** What a thrown value looks like to the handlers: [error.message] and
    [error.response.data] (absent when no response was received). *)
Record JsError : Type := mkError {
  err_message : string;
  err_response : option jsval
}.

(** The TypeError of V8 for [v.k] when [v] is [null] or [undefined]. *)
Definition type_error (what k : string) : JsError :=
  mkError ("Cannot read properties of " ++ what ++ " (reading '" ++ k ++ "')")
          None.

(** [v.k]: throws on [null] and [undefined]; a missing property, or any
    of the property names used here on a primitive or an array, reads as
    [undefined]. *)
Definition get (v : jsval) (k : string) : JsError + jsval :=
  match v with
  | JUndefined => inl (type_error "undefined" k)
  | JNull => inl (type_error "null" k)
  | JObj ps => inr (assoc k ps)
  | _ => inr JUndefined
  end.

Definition nullish (v : jsval) : bool :=
  match v with JUndefined | JNull => true | _ => false end.

(** [v?.k] *)
Definition get_opt (v : jsval) (k : string) : jsval :=
  match get v k with inl _ => JUndefined | inr x => x end.

Definition truthy (v : jsval) : bool :=
  match v with
  | JUndefined | JNull => false
  | JBool b => b
  | JNum z => negb (z =? 0)
  | JStr s => negb (String.eqb s EmptyString)
  | JArr _ | JObj _ => true
  end.

(** [a || b] *)
Definition or_else (a b : jsval) : jsval := if truthy a then a else b.

(** [v === 'lit'] *)
Definition strict_eq_str (v : jsval) (lit : string) : bool :=
  match v with JStr s => String.eqb s lit | _ => false end.

(** *** Binary64 numbers

    A non-negative finite double is [mant * 2 ^ expo].  The numbers that
    occur here are byte counts, their products by 100 and quotients of
    those: all far inside the range of normal doubles, so neither
    overflow nor gradual underflow is modelled.  The mantissa of a
    non-zero result lies between 2^52 and 2^53, both included (2^53 when
    rounding carried; the value is the same as 2^52 with the next
    exponent). *)
Record f64 : Type := mkF { mant : Z; expo : Z }.

(** The double nearest to the fraction [a / b] (for [0 <= a] and
    [0 < b]), ties to even: [la - lb - s] is the binary logarithm of the
    fraction rounded down, and the fraction scaled by [2 ^ (52 - that)] is
    rounded to an integer. *)
Definition rn_frac (a b : Z) : f64 :=
  if a <=? 0 then mkF 0 0
  else
    let la := Z.log2 a in
    let lb := Z.log2 b in
    let s := if b * 2 ^ la <=? a * 2 ^ lb then 0 else 1 in
    let num := a * 2 ^ (52 + lb + s) in
    let den := b * 2 ^ la in
    let q := num / den in
    let r := num mod den in
    let m := if 2 * r <? den then q
             else if den <? 2 * r then q + 1
             else if Z.even q then q else q + 1 in
    mkF m (la - lb - s - 52).

(** The value of a double as a fraction. *)
Definition as_frac (x : f64) : Z * Z :=
  if 0 <=? expo x then (mant x * 2 ^ expo x, 1) else (mant x, 2 ^ (- expo x)).

(** The Number for a non-negative integer. *)
Definition of_N (n : N) : f64 := rn_frac (Z.of_N n) 1.

(** [x * y] and [x / y] for [y] not zero. *)
Definition fmul (x y : f64) : f64 :=
  let (a1, b1) := as_frac x in
  let (a2, b2) := as_frac y in
  rn_frac (a1 * a2) (b1 * b2).

Definition fdiv (x y : f64) : f64 :=
  let (a1, b1) := as_frac x in
  let (a2, b2) := as_frac y in
  rn_frac (a1 * b2) (b1 * a2).

(** [Math.round(x)] for a finite [x]: [floor(x + 1/2)], taken exactly. *)
Definition js_round (x : f64) : Z :=
  if 0 <=? expo x then mant x * 2 ^ expo x
  else (2 * mant x + 2 ^ (- expo x)) / (2 * 2 ^ (- expo x)).

(** [x] is the integer [n]. *)
Definition is_int (x : f64) (n : Z) : Prop :=
  exists a b, as_frac x = (a, b) /\ 0 < b /\ a = n * b.

(** The integer value of the double nearest to the integer [z]. *)
Definition nearest_double (z : Z) : Z :=
  let x := rn_frac z 1 in
  if 0 <=? expo x then mant x * 2 ^ expo x else mant x / 2 ^ (- expo x).

Definition digit (n : N) : string :=
  String (ascii_of_N (48 + n)) EmptyString.

Fixpoint digits (fuel : nat) (n : N) : string :=
  match fuel with
  | O => EmptyString
  | S f => (if (n <? 10)%N then EmptyString else digits f (n / 10)%N)
           ++ digit (n mod 10)%N
  end.

Definition decimal (z : Z) : string :=
  let n := Z.to_N z in digits (S (N.to_nat (N.log2 n))) n.

(** Number::toString looks for the least number [k] of digits such that
    some [s] of [k] digits has [s * 10 ^ (n - k)] round to [x], where [n]
    is the number of digits of [x]; of two such [s] the nearer to [x]. *)
Fixpoint shortest (fuel : nat) (k n x : Z) : Z * Z :=
  match fuel with
  | O => (x, n)
  | S f =>
      let p := 10 ^ (n - k) in
      let s1 := x / p in
      let s2 := s1 + 1 in
      let ok1 := nearest_double (s1 * p) =? x in
      let ok2 := (s2 <? 10 ^ k) && (nearest_double (s2 * p) =? x) in
      if ok1 && ok2 then (if x - s1 * p <=? s2 * p - x then (s1, k) else (s2, k))
      else if ok1 then (s1, k)
      else if ok2 then (s2, k)
      else shortest f (k + 1) n x
  end.

Fixpoint zeros (n : nat) : string :=
  match n with O => EmptyString | S n' => "0" ++ zeros n' end.

(** The digits of [s] followed by zeros when the number has at most 21
    digits, the exponent form from 1e21 on. *)
Definition positive_to_string (x : Z) : string :=
  let n := Z.of_nat (String.length (decimal x)) in
  let (s, k) := shortest (Z.to_nat n) 1 n x in
  let ds := decimal s in
  if n <=? 21 then ds ++ zeros (Z.to_nat (n - k))
  else
    match ds with
    | String d rest =>
        String d (match rest with EmptyString => EmptyString | _ => "." ++ rest end)
        ++ "e+" ++ decimal (n - 1)
    | EmptyString => EmptyString
    end.

(** Number::toString for the Number [JNum z] stands for, which is the
    double nearest to [z], infinite from 2^1024 on. *)
Definition num_to_string (z : Z) : string :=
  if z =? 0 then "0"
  else (if z <? 0 then "-" else EmptyString)
       ++ (let x := nearest_double (Z.abs z) in
           if 2 ^ 1024 <=? x then "Infinity" else positive_to_string x).

(** ToString, as a template literal applies it. *)
Fixpoint to_str (v : jsval) : string :=
  match v with
  | JUndefined => "undefined"
  | JNull => "null"
  | JBool true => "true"
  | JBool false => "false"
  | JNum z => num_to_string z
  | JStr s => s
  | JObj _ => "[object Object]"
  | JArr items =>
      (fix join (l : list jsval) : string :=
         match l with
         | [] => EmptyString
         | x :: r =>
             (if nullish x then EmptyString else to_str x)
             ++ match r with [] => EmptyString | _ => "," ++ join r end
         end) items
  end.

(** *** Strings *)

Definition is_continuation (c : ascii) : bool :=
  let n := N_of_ascii c in ((128 <=? n) && (n <? 192))%N.

(** The characters of a string: every byte that is not a continuation
    byte starts one, and the continuation bytes after it belong to it. *)
Fixpoint chars (s : string) : list string :=
  match s with
  | EmptyString => []
  | String c r =>
      match chars r with
      | String c' ch :: rest =>
          if is_continuation c' then String c (String c' ch) :: rest
          else String c EmptyString :: String c' ch :: rest
      | rest => String c EmptyString :: rest
      end
  end.

Definition byte (n : N) : string := String (ascii_of_N n) EmptyString.

(** The encoding of a code point. *)
Definition utf8 (cp : N) : string :=
  (if cp <? 128 then byte cp
   else if cp <? 2048 then byte (192 + cp / 64) ++ byte (128 + cp mod 64)
   else if cp <? 65536 then
     byte (224 + cp / 4096) ++ byte (128 + (cp / 64) mod 64)
     ++ byte (128 + cp mod 64)
   else
     byte (240 + cp / 262144) ++ byte (128 + (cp / 4096) mod 64)
     ++ byte (128 + (cp / 64) mod 64) ++ byte (128 + cp mod 64))%N.

(** The code points [String.prototype.trim] strips: WhiteSpace (TAB, VT,
    FF, SP, NBSP, the other space separators, ZWNBSP) and LineTerminator
    (LF, CR, LS, PS). *)
Definition white_space : list N :=
  [9; 10; 11; 12; 13; 32; 160; 5760; 8192; 8193; 8194; 8195; 8196; 8197; 8198;
   8199; 8200; 8201; 8202; 8232; 8233; 8239; 8287; 12288; 65279]%N.

Definition is_space (ch : string) : bool :=
  existsb (fun cp => String.eqb ch (utf8 cp)) white_space.

Fixpoint dropStart (l : list string) : list string :=
  match l with
  | ch :: r => if is_space ch then dropStart r else l
  | [] => []
  end.

Fixpoint dropEnd (l : list string) : list string :=
  match l with
  | [] => []
  | ch :: r =>
      match dropEnd r with
      | [] => if is_space ch then [] else [ch]
      | t => ch :: t
      end
  end.

Definition trimStart (s : string) : string :=
  String.concat EmptyString (dropStart (chars s)).

Definition trimEnd (s : string) : string :=
  String.concat EmptyString (dropEnd (chars s)).

Definition trim (s : string) : string :=
  String.concat EmptyString (dropEnd (dropStart (chars s))).

(** [s.length]: the number of UTF-16 code units, two for a character
    encoded on four bytes. *)
Definition utf16_length (s : string) : nat :=
  (List.length (chars s)
   + List.length (filter (fun ch => match ch with
                                    | String c _ => (240 <=? N_of_ascii c)%N
                                    | EmptyString => false
                                    end) (chars s)))%nat.

(** [!s] for a string [s]. *)
Definition str_falsy (s : string) : bool := String.eqb s EmptyString.

(** The values [uploadProgress] can hold: a whole number, or what
    [Math.round] returns for a division by zero. *)
Inductive jsnum : Type :=
| Num (z : Z)
| NaN
| Infinity.

(** [Math.round(p / q)] for non-negative [p] and [q]: not a number for
    0 / 0, infinite for a positive number over 0. *)
Definition round_div (p q : f64) : jsnum :=
  if mant q =? 0 then (if mant p =? 0 then NaN else Infinity)
  else Num (js_round (fdiv p q)).

End Js.
Import Js.

(** ** The component state *)

Inductive EntryType : Type := user | assistant | error | success.

(** An element of [messages].  A message built without a [sources]
    property reads [undefined] there. *)
Record Entry : Type := mkEntry {
  id : Z;
  type : EntryType;
  content : jsval;
  sources : jsval;
  timestamp : Z
}.

Inductive Page : Type := home | chat | docs.
Inductive Status : Type := checking | online | offline.

(** The [useState] cells of [App], with their initial values below. *)
Record AppState : Type := mkApp {
  currentPage : Page;
  messages : list Entry;
  inputValue : string;
  isLoading : bool;
  documents : jsval;
  uploadProgress : jsnum;
  apiStatus : Status
}.

Definition initial : AppState :=
  mkApp home [] EmptyString false (JArr []) (Num 0) checking.

Definition EntryType_eqb (a b : EntryType) : bool :=
  match a, b with
  | user, user | assistant, assistant | error, error | success, success => true
  | _, _ => false
  end.

Definition Status_eqb (a b : Status) : bool :=
  match a, b with
  | checking, checking | online, online | offline, offline => true
  | _, _ => false
  end.

Definition Page_eqb (a b : Page) : bool :=
  match a, b with
  | home, home | chat, chat | docs, docs => true
  | _, _ => false
  end.

(** ** Requests in flight *)

Record File : Type := mkFile { name : string; size : N }.

Record FormData : Type := mkForm {
  fd_file : File;
  fd_organization : string;
  fd_doc_type : string;
  fd_year : Z
}.

Inductive Body : Type :=
| NoBody
| Json (v : jsval)
| Multipart (f : FormData).

(** Paths are relative to [API_BASE_URL]. *)
Inductive Request : Type :=
| Get (path : string)
| Post (path : string) (body : Body).

(** How the awaited promise settles: with a response, of which only
    [response.data] is read, or with a thrown value. *)
Inductive Outcome : Type :=
| Resolved (data : jsval)
| Rejected (e : JsError).

(** The rest of a handler after its [await], with the render-time
    [messages] the closure still refers to where it reads it. *)
Inductive Cont : Type :=
| KHealth
| KDocuments
| KChat
| KUpload (closure_messages : list Entry)
| KSeed (closure_messages : list Entry).

Record Pending : Type := mkPending { request : Request; kont : Cont }.

Record World : Type := mkWorld {
  app : AppState;
  inflight : list Pending;
  console : list string
}.

Definition boot : World := mkWorld initial [] [].

(** ** A state and exception monad for handler bodies *)

Definition M (A : Type) : Type := World -> (JsError + A) * World.

Definition ret {A} (a : A) : M A := fun w => (inr a, w).

Definition bind {A B} (m : M A) (k : A -> M B) : M B :=
  fun w => match m w with
           | (inl e, w') => (inl e, w')
           | (inr a, w') => k a w'
           end.

Definition throw {A} (e : JsError) : M A := fun w => (inl e, w).

Notation "x <- m ;; k" := (bind m (fun x => k))
  (at level 61, m at next level, right associativity).
Notation "m ;; k" := (bind m (fun _ => k))
  (at level 61, right associativity).

(** [try { body } catch (error) { handler }] *)
Definition try_catch (body : M unit) (handler : JsError -> M unit) : M unit :=
  fun w => match body w with
           | (inl e, w') => handler e w'
           | r => r
           end.

(** [... finally { fin }]: [fin] runs on both exits; an exception that
    escaped is thrown again after it. *)
Definition finally (m : M unit) (fin : M unit) : M unit :=
  fun w => match m w with
           | (inl e, w') =>
               match fin w' with
               | (inr _, w'') => (inl e, w'')
               | r => r
               end
           | (inr _, w') => fin w'
           end.

Definition lift {A} (r : JsError + A) : M A :=
  match r with inl e => throw e | inr a => ret a end.

Definition update (f : AppState -> AppState) : M unit :=
  fun w => (inr tt, mkWorld (f (app w)) (inflight w) (console w)).

(** The cells as the current render shows them. *)
Definition render : M AppState := fun w => (inr (app w), w).

Definition setCurrentPage (p : Page) : M unit :=
  update (fun s => mkApp p (messages s) (inputValue s) (isLoading s)
                         (documents s) (uploadProgress s) (apiStatus s)).

Definition setMessagesWith (f : list Entry -> list Entry) : M unit :=
  update (fun s => mkApp (currentPage s) (f (messages s)) (inputValue s)
                         (isLoading s) (documents s) (uploadProgress s)
                         (apiStatus s)).

Definition setMessages (v : list Entry) : M unit := setMessagesWith (fun _ => v).

Definition setInputValue (v : string) : M unit :=
  update (fun s => mkApp (currentPage s) (messages s) v (isLoading s)
                         (documents s) (uploadProgress s) (apiStatus s)).

Definition setIsLoading (v : bool) : M unit :=
  update (fun s => mkApp (currentPage s) (messages s) (inputValue s) v
                         (documents s) (uploadProgress s) (apiStatus s)).

Definition setDocuments (v : jsval) : M unit :=
  update (fun s => mkApp (currentPage s) (messages s) (inputValue s)
                         (isLoading s) v (uploadProgress s) (apiStatus s)).

Definition setUploadProgress (v : jsnum) : M unit :=
  update (fun s => mkApp (currentPage s) (messages s) (inputValue s)
                         (isLoading s) (documents s) v (apiStatus s)).

Definition setApiStatus (v : Status) : M unit :=
  update (fun s => mkApp (currentPage s) (messages s) (inputValue s)
                         (isLoading s) (documents s) (uploadProgress s) v).

(** [console.error(label, error)] *)
Definition console_error (label : string) (e : JsError) : M unit :=
  fun w => (inr tt, mkWorld (app w) (inflight w)
                            (console w ++ [(label ++ " " ++ err_message e)%string])%list).

(** [axios.get] / [axios.post]: the request leaves, the caller is
    suspended until it settles. *)
Definition dispatch (r : Request) (k : Cont) : M unit :=
  fun w => (inr tt, mkWorld (app w) (inflight w ++ [mkPending r k])%list (console w)).

(** [const response = await ...] followed by reads of [response.data]. *)
Definition await (o : Outcome) : M jsval :=
  match o with Resolved d => ret d | Rejected e => throw e end.

Definition prop (v : jsval) (k : string) : M jsval := lift (get v k).

(** ** The handlers of [App] *)

(** [checkApiHealth], up to its [await]. *)
Definition checkApiHealth : M unit := dispatch (Get "/health") KHealth.

(** [checkApiHealth], from its [await] on. *)
Definition checkApiHealth_resume (o : Outcome) : M unit :=
  try_catch
    (data <- await o ;;
     st <- prop data "status" ;;
     if strict_eq_str st "success" then setApiStatus online else ret tt)
    (fun err =>
       setApiStatus offline ;;
       console_error "API Health Check Failed:" err).

Definition loadDocuments : M unit := dispatch (Get "/documents") KDocuments.

Definition loadDocuments_resume (o : Outcome) : M unit :=
  try_catch
    (data <- await o ;;
     st <- prop data "status" ;;
     if strict_eq_str st "success"
     then ds <- prop data "documents" ;; setDocuments ds
     else ret tt)
    (fun err => console_error "Error loading documents:" err).

Definition userMessage (text : string) (now : Z) : Entry :=
  mkEntry now user (JStr text) JUndefined now.

Definition aiMessage (answer srcs : jsval) (now : Z) : Entry :=
  mkEntry (now + 1) assistant answer srcs now.

Definition chat_error_text : string :=
  "Error: Could not connect to backend. Please check if the server is running.".

Definition chatErrorMessage (now : Z) : Entry :=
  mkEntry (now + 1) error (JStr chat_error_text) JUndefined now.

(** [handleSendMessage], up to its [await].  [messages] and [inputValue]
    are the render's. *)
Definition handleSendMessage (now : Z) : M unit :=
  r <- render ;;
  if str_falsy (trim (inputValue r)) then ret tt
  else
    setMessages (messages r ++ [userMessage (inputValue r) now])%list ;;
    setInputValue EmptyString ;;
    setIsLoading true ;;
    dispatch (Post "/chat" (Json (JObj [("query", JStr (inputValue r))]))) KChat.

Definition handleSendMessage_resume (o : Outcome) (now : Z) : M unit :=
  finally
    (try_catch
       (data <- await o ;;
        answer <- prop data "answer" ;;
        srcs <- prop data "sources" ;;
        setMessagesWith (fun prev => (prev ++ [aiMessage answer srcs now])%list))
       (fun _ =>
          setMessagesWith (fun prev => (prev ++ [chatErrorMessage now])%list)))
    (setIsLoading false).

Definition successMessage (filename sz : jsval) (now : Z) : Entry :=
  mkEntry now success
    (JStr ("‚úÖ " ++ to_str filename ++ " uploaded successfully ("
           ++ to_str sz ++ ")"))
    JUndefined now.

(** [error.response?.data?.message || error.message] *)
Definition failure_text (e : JsError) : jsval :=
  or_else
    (match err_response e with
     | None => JUndefined
     | Some d => get_opt d "message"
     end)
    (JStr (err_message e)).

Definition uploadErrorMessage (e : JsError) (now : Z) : Entry :=
  mkEntry now error
    (JStr ("Error uploading file: " ++ to_str (failure_text e)))
    JUndefined now.

(** [handleFileUpload], up to its [await]; [file] is [e.target.files[0]]
    and [year] is [new Date().getFullYear()]. *)
Definition handleFileUpload (file : option File) (year : Z) : M unit :=
  r <- render ;;
  match file with
  | None => ret tt
  | Some f =>
      let formData := mkForm f "Sample Organization" "Financial Document" year in
      setIsLoading true ;;
      setUploadProgress (Num 0) ;;
      dispatch (Post "/upload" (Multipart formData)) (KUpload (messages r))
  end.

(** The [onUploadProgress] callback; [total] may be missing from the
    event. *)
Definition onUploadProgress (loaded : N) (total : option N) : M unit :=
  let percentComplete :=
    match total with
    | Some t => round_div (fmul (of_N loaded) (of_N 100)) (of_N t)
    | None => NaN
    end in
  setUploadProgress percentComplete.

Definition handleFileUpload_resume
    (closure_messages : list Entry) (o : Outcome) (now : Z) : M unit :=
  finally
    (try_catch
       (data <- await o ;;
        st <- prop data "status" ;;
        if strict_eq_str st "success"
        then
          filename <- prop data "filename" ;;
          sz <- prop data "size" ;;
          setMessages (closure_messages ++ [successMessage filename sz now])%list ;;
          loadDocuments
        else ret tt)
       (fun err =>
          setMessages (closure_messages ++ [uploadErrorMessage err now])%list))
    (setIsLoading false ;; setUploadProgress (Num 0)).

(** The double quote character, for the literal below. *)
Definition dq : string := String (ascii_of_N 34) EmptyString.

Definition sample_text : string :=
  "‚úÖ Sample documents loaded! Try asking about " ++ dq ++ "COVID relief"
  ++ dq ++ ", " ++ dq ++ "healthcare spending" ++ dq ++ ", or " ++ dq
  ++ "education budget" ++ dq.

Definition sampleMessage (now : Z) : Entry :=
  mkEntry now success (JStr sample_text) JUndefined now.

Definition loadSampleData : M unit :=
  r <- render ;;
  dispatch (Post "/init" NoBody) (KSeed (messages r)).

Definition loadSampleData_resume
    (closure_messages : list Entry) (o : Outcome) (now : Z) : M unit :=
  try_catch
    (_ <- await o ;;
     loadDocuments ;;
     setMessages (closure_messages ++ [sampleMessage now])%list)
    (fun err => console_error "Error loading sample data:" err).

(** ** Events and the transition function *)

Inductive Event : Type :=
| Mount                                   (* the effect run on load *)
| Navigate (p : Page)
| Change (text : string)                  (* typing in the text input *)
| Submit (now : Z)                        (* the chat form is submitted *)
| SelectFile (file : option File) (year : Z)
| ClickLoadSample
| Progress (k : nat) (loaded : N) (total : option N)
| Settle (k : nat) (o : Outcome) (now : Z).

Fixpoint remove_nth {A} (k : nat) (l : list A) : list A :=
  match k, l with
  | _, [] => []
  | O, _ :: r => r
  | S k', x :: r => x :: remove_nth k' r
  end.

(** The request at position [k] leaves the set of requests in flight. *)
Definition take (k : nat) : M (option Pending) :=
  fun w => match nth_error (inflight w) k with
           | None => (inr None, w)
           | Some p =>
               (inr (Some p),
                mkWorld (app w) (remove_nth k (inflight w)) (console w))
           end.

Definition resume (c : Cont) (o : Outcome) (now : Z) : M unit :=
  match c with
  | KHealth => checkApiHealth_resume o
  | KDocuments => loadDocuments_resume o
  | KChat => handleSendMessage_resume o now
  | KUpload ms => handleFileUpload_resume ms o now
  | KSeed ms => loadSampleData_resume ms o now
  end.

Definition handle (ev : Event) : M unit :=
  match ev with
  | Mount => checkApiHealth ;; loadDocuments
  | Navigate p => setCurrentPage p
  | Change text => setInputValue text
  | Submit now => handleSendMessage now
  | SelectFile file year => handleFileUpload file year
  | ClickLoadSample => loadSampleData
  | Progress k loaded total =>
      fun w => match nth_error (inflight w) k with
               | Some (mkPending _ (KUpload _)) => onUploadProgress loaded total w
               | _ => (inr tt, w)
               end
  | Settle k o now =>
      p <- take k ;;
      match p with
      | Some (mkPending _ c) => resume c o now
      | None => ret tt
      end
  end.

(** The world after a handler body; an exception that escapes the
    handler rejects its promise and changes nothing more. *)
Definition exec (m : M unit) (w : World) : World := snd (m w).

Definition step (w : World) (ev : Event) : World := exec (handle ev) w.

Definition run (w : World) (evs : list Event) : World := fold_left step evs w.

(** ** The [disabled] attributes of [renderChat] *)

Definition file_input_disabled (s : AppState) : bool := isLoading s.

Definition text_input_disabled (s : AppState) : bool :=
  isLoading s || Status_eqb (apiStatus s) offline.

Definition send_button_disabled (s : AppState) : bool :=
  isLoading s || str_falsy (trim (inputValue s))
  || Status_eqb (apiStatus s) offline.

(** [messages.length === 0 && <button onClick={loadSampleData}>] *)
Definition sample_button_shown (s : AppState) : bool :=
  match messages s with [] => true | _ => false end.

(** Whether the rendered page lets the user cause the event.  The chat
    form exists on the chat page only; it is submitted through its
    button, and a form whose submit button is disabled is not submitted
    by the Enter key either. *)
Definition offered (s : AppState) (ev : Event) : bool :=
  match ev with
  | Change _ => Page_eqb (currentPage s) chat && negb (text_input_disabled s)
  | Submit _ => Page_eqb (currentPage s) chat && negb (send_button_disabled s)
  | SelectFile _ _ =>
      Page_eqb (currentPage s) chat && negb (file_input_disabled s)
  | ClickLoadSample => Page_eqb (currentPage s) chat && sample_button_shown s
  | Mount | Navigate _ | Progress _ _ _ | Settle _ _ _ => true
  end.

(** Every event of the trace is offered in the state it occurs in. *)
Fixpoint admissible (w : World) (evs : list Event) : bool :=
  match evs with
  | [] => true
  | ev :: rest => offered (app w) ev && admissible (step w ev) rest
  end.

Definition kont_of_first (w : World) : option Cont :=
  option_map kont (hd_error (inflight w)).

(** The requests a handler run has sent: what it added to [inflight]. *)
Definition dispatched (w w' : World) : list Pending :=
  skipn (List.length (inflight w)) (inflight w').

Definition count_type (t : EntryType) (l : list Entry) : nat :=
  List.length (filter (fun e => EntryType_eqb (type e) t) l).

(** ** Scenarios *)

Definition network_error : JsError := mkError "Network Error" None.

Definition answer_body : jsval :=
  JObj [("answer", JStr "X amount");
        ("sources", JArr [JObj [("title", JStr "Budget 2023");
                                ("organization", JStr "Ministry of Health")]])].

(** The page is opened, the health check succeeds, the user goes to the
    chat page, clicks the sample-data button, then asks a question, which
    is answered; last, the sample-data request completes. *)
Definition seed_trace : list Event :=
  [Mount;
   Settle 0 (Resolved (JObj [("status", JStr "success")])) 0;
   Navigate chat;
   ClickLoadSample;
   Change "How much?";
   Submit 10;
   Settle 2 (Resolved answer_body) 20;
   Settle 1 (Resolved (JObj [("status", JStr "success")])) 30].

(** Two questions, the first answered in the millisecond it was asked
    in, the second asked one millisecond later. *)
Definition id_trace : list Event :=
  [Mount;
   Settle 0 (Resolved (JObj [("status", JStr "success")])) 0;
   Navigate chat;
   Change "first";
   Submit 1000;
   Settle 1 (Resolved answer_body) 1000;
   Change "second";
   Submit 1001].

(** A question and its answer, then a file upload that succeeds. *)
Definition upload_trace : list Event :=
  [Mount;
   Settle 0 (Resolved (JObj [("status", JStr "success")])) 0;
   Navigate chat;
   Change "How much?";
   Submit 10;
   Settle 1 (Resolved answer_body) 20;
   SelectFile (Some (mkFile "budget.pdf" 2048)) 2024;
   Settle 1 (Resolved (JObj [("status", JStr "success");
                             ("filename", JStr "budget.pdf");
                             ("size", JStr "2 KB")])) 30].

(** The value of [uploadProgress] after each event of a trace. *)
Fixpoint observations (w : World) (evs : list Event) : list jsnum :=
  match evs with
  | [] => []
  | ev :: rest => uploadProgress (app (step w ev)) :: observations (step w ev) rest
  end.

(** The progress events of the transfer at position [k], all with the
    same total. *)
Definition progress_events (k : nat) (total : N) (loads : list N) : list Event :=
  map (fun loaded => Progress k loaded (Some total)) loads.

(** The percentage as the specification words it, over the rationals:
    round(bytesSent / totalBytes * 100), rounding half up. *)
Definition progressPercent_spec (bytesSent totalBytes : N) : Z :=
  Qfloor (inject_Z (Z.of_N bytesSent) / inject_Z (Z.of_N totalBytes)
          * inject_Z 100 + (1 # 2))%Q.

(** ** The rest of the page *)

(** The text of the status indicator in the chat header. *)
Definition status_indicator (s : AppState) : string :=
  if Status_eqb (apiStatus s) online then "üü¢ Online" else "üî¥ Offline".

(** [isLoading && <div className="message message-loading">] *)
Definition loading_shown (s : AppState) : bool := isLoading s.

(** [uploadProgress > 0 && uploadProgress < 100]; a comparison with
    [NaN] is false. *)
Definition progress_bar_shown (s : AppState) : bool :=
  match uploadProgress s with
  | Num z => (0 <? z) && (z <? 100)
  | NaN => false
  | Infinity => true && false
  end.

(** [apiStatus === 'offline' && <div className="warning">] of [renderHome]. *)
Definition offline_warning_shown (s : AppState) : bool :=
  Status_eqb (apiStatus s) offline.

(** [v.length] for the values [documents] can hold. *)
Definition js_length (v : jsval) : JsError + jsval :=
  match v with
  | JUndefined => inl (type_error "undefined" "length")
  | JNull => inl (type_error "null" "length")
  | JArr items => inr (JNum (Z.of_nat (List.length items)))
  | JStr s => inr (JNum (Z.of_nat (utf16_length s)))
  | JObj ps => inr (assoc "length" ps)
  | JBool _ | JNum _ => inr JUndefined
  end.

(** [v === 0] *)
Definition strict_eq_zero (v : jsval) : bool :=
  match v with JNum 0 => true | _ => false end.

Definition not_a_function (what : string) : JsError :=
  mkError (what ++ " is not a function") None.

(** What [renderDocuments] reads of one document for its card; the
    [key] is read first. *)
Record DocCard : Type := mkCard {
  card_key : jsval;
  card_title : jsval;
  card_organization : jsval;
  card_doc_type : jsval;
  card_year : jsval;
  card_uploaded_at : jsval
}.

Definition document_card (doc : jsval) : JsError + DocCard :=
  match get doc "id" with
  | inl e => inl e
  | inr k =>
      inr (mkCard k (get_opt doc "title") (get_opt doc "organization")
                  (get_opt doc "doc_type") (get_opt doc "year")
                  (get_opt doc "uploaded_at"))
  end.

(** [items.map(f)] for an [f] that may throw: the first exception stops
    the traversal. *)
Fixpoint map_throwing {A B} (f : A -> JsError + B) (items : list A)
  : JsError + list B :=
  match items with
  | [] => inr []
  | x :: rest =>
      match f x with
      | inl e => inl e
      | inr y =>
          match map_throwing f rest with
          | inl e => inl e
          | inr ys => inr (y :: ys)
          end
      end
  end.

Inductive DocumentsBody : Type :=
| NoDocumentsYet
| DocumentCards (cards : list DocCard).

(** The element [renderDocuments] returns: the count shown in the header
    and the grid. *)
Record DocumentsView : Type := mkDocsView {
  shown_total : jsval;
  grid : DocumentsBody
}.

Definition renderDocuments (s : AppState) : JsError + DocumentsView :=
  match js_length (documents s) with
  | inl e => inl e
  | inr n =>
      if strict_eq_zero n then inr (mkDocsView n NoDocumentsYet)
      else
        match documents s with
        | JArr items =>
            match map_throwing document_card items with
            | inl e => inl e
            | inr cards => inr (mkDocsView n (DocumentCards cards))
            end
        | _ => inl (not_a_function "documents.map")
        end
  end.

(** [message.sources && (<div className="sources"> ... map ... </div>)] of
    [renderChat]: a falsy [sources] is the child itself, otherwise the
    block lists title and organization of each source. *)
Inductive SourcesView : Type :=
| Bare (v : jsval)
| SourcesBlock (lines : list (jsval * jsval)).

Definition source_line (source : jsval) : JsError + (jsval * jsval) :=
  match get source "title" with
  | inl e => inl e
  | inr t => inr (t, get_opt source "organization")
  end.

Definition render_sources (message : Entry) : JsError + SourcesView :=
  if truthy (sources message) then
    match sources message with
    | JArr items =>
        match map_throwing source_line items with
        | inl e => inl e
        | inr ls => inr (SourcesBlock ls)
        end
    | _ => inl (not_a_function "message.sources.map")
    end
  else inr (Bare (sources message)).

(** ** Predicates on worlds and traces *)

(** The request [loadDocuments] sends. *)
Definition refresh_request : Pending := mkPending (Get "/documents") KDocuments.

(** A request whose handler raised the loading flag. *)
Definition busy (p : Pending) : bool :=
  match kont p with
  | KChat | KUpload _ => true
  | KHealth | KDocuments | KSeed _ => false
  end.

Definition count_busy (w : World) : nat :=
  List.length (filter busy (inflight w)).

(** The balance between the loading flag and the requests that raised
    it. *)
Definition BusyInv (w : World) : Prop :=
  count_busy w = if isLoading (app w) then 1%nat else 0%nat.

Definition is_upload (p : Pending) : bool :=
  match kont p with KUpload _ => true | _ => false end.

Definition is_seed (p : Pending) : bool :=
  match kont p with KSeed _ => true | _ => false end.

(** Every upload in flight still holds the current [messages]. *)
Definition ClosuresFresh (w : World) : Prop :=
  forall p ms, In p (inflight w) -> kont p = KUpload ms -> ms = messages (app w).

(** No sample-data request is in flight. *)
Definition NoSeed (w : World) : Prop :=
  forall p, In p (inflight w) -> is_seed p = false.

(** No health request is in flight. *)
Definition NoHealth (w : World) : Prop :=
  forall p, In p (inflight w) -> kont p <> KHealth.

Definition is_mount (ev : Event) : bool :=
  match ev with Mount => true | _ => false end.

Definition is_sample_click (ev : Event) : bool :=
  match ev with ClickLoadSample => true | _ => false end.

(** Every character of the string is one that [trim] strips. *)
Definition all_spaces (s : string) : bool := forallb is_space (chars s).

(** * Properties *)

(** ** Auxiliary facts *)

Lemma dispatched_app (w : World) (a : AppState) (ps : list Pending) (c : list string) :
  dispatched w (mkWorld a (inflight w ++ ps) c) = ps.
Proof.
  unfold dispatched; simpl.
  rewrite skipn_app, skipn_all, Nat.sub_diag; reflexivity.
Qed.

Lemma dispatched_same (w : World) (a : AppState) (c : list string) :
  dispatched w (mkWorld a (inflight w) c) = [].
Proof. unfold dispatched; simpl; apply skipn_all. Qed.

Lemma str_falsy_true (s : string) : str_falsy s = true <-> s = EmptyString.
Proof. unfold str_falsy; apply String.eqb_eq. Qed.

Lemma str_falsy_false (s : string) : str_falsy s = false <-> s <> EmptyString.
Proof. unfold str_falsy; apply String.eqb_neq. Qed.

(** Unfolds a handler run down to the monad's primitives. *)
Ltac run_handler :=
  unfold step, exec, handle, resume, handleSendMessage, handleSendMessage_resume,
    handleFileUpload, handleFileUpload_resume, loadSampleData,
    loadSampleData_resume, checkApiHealth, checkApiHealth_resume,
    loadDocuments, loadDocuments_resume, onUploadProgress, finally, try_catch,
    bind, take, render, await, prop, lift, throw, ret, dispatch, console_error,
    setMessages, setMessagesWith, setInputValue, setIsLoading, setDocuments,
    setUploadProgress, setApiStatus, setCurrentPage, update in *.

(** What the chat handler does once its request settles, whatever the
    state then is: one entry at the end of [messages], the loading flag
    down, nothing else touched. *)
Lemma chat_resume_world (o : Outcome) (now : Z) (w : World) :
  exists t : Entry,
    exec (handleSendMessage_resume o now) w
    = mkWorld (mkApp (currentPage (app w)) (messages (app w) ++ [t])
                     (inputValue (app w)) false (documents (app w))
                     (uploadProgress (app w)) (apiStatus (app w)))
              (inflight w) (console w)
    /\ t = match o with
           | Rejected _ => chatErrorMessage now
           | Resolved d =>
               if nullish d then chatErrorMessage now
               else aiMessage (get_opt d "answer") (get_opt d "sources") now
           end.
Proof.
  destruct o as [d | e]; [destruct d |]; run_handler; simpl;
    eexists; split; reflexivity.
Qed.

(** ** Chat *)

(** C9. [handleSendMessage] called while the input is empty or only
    white space returns at once: no entry is appended, no request is
    dispatched, the input is not cleared and the loading flag is not
    raised; the whole state is as before. *)
Theorem blank_send_is_noop (w : World) (now : Z) :
  trim (inputValue (app w)) = EmptyString ->
  handleSendMessage now w = (inr tt, w)
  /\ messages (app (step w (Submit now))) = messages (app w)
  /\ dispatched w (step w (Submit now)) = []
  /\ inputValue (app (step w (Submit now))) = inputValue (app w)
  /\ isLoading (app (step w (Submit now))) = isLoading (app w).
Proof.
  intros Hblank.
  assert (Hrun : handleSendMessage now w = (inr tt, w)).
  { unfold handleSendMessage, bind, render, ret.
    apply str_falsy_true in Hblank; rewrite Hblank; reflexivity. }
  unfold step, exec, handle; rewrite Hrun; simpl.
  repeat split; try reflexivity.
  destruct w; apply dispatched_same.
Qed.

Lemma blank_send_is_noop_witness :
  let w := mkWorld (mkApp chat [] "  " false (JArr []) (Num 0) online) [] [] in
  trim (inputValue (app w)) = EmptyString
  /\ step w (Submit 1700000000000) = w.
Proof.
  split; [reflexivity |].
  pose proof (blank_send_is_noop
                (mkWorld (mkApp chat [] "  " false (JArr []) (Num 0) online) [] [])
                1700000000000 eq_refl) as [Hrun _].
  unfold step, exec, handle. rewrite Hrun. reflexivity.
Defined.

(** C1. A send whose trimmed text is not empty appends exactly one
    entry at once, of type [user], holding the text as typed and stamped
    with the time of the call, and dispatches one chat request; when that
    request settles, in whatever state the application then is, exactly
    one entry is appended, an [assistant] entry or an [error] entry:
    [error] when the promise rejected, [assistant] when it resolved with
    a body; and the request is no longer in flight. *)
Theorem send_one_user_one_terminal (w : World) (now : Z) :
  trim (inputValue (app w)) <> EmptyString ->
  let w1 := step w (Submit now) in
  messages (app w1)
  = (messages (app w)
     ++ [mkEntry now user (JStr (inputValue (app w))) JUndefined now])%list
  /\ count_type user (messages (app w1))
     = S (count_type user (messages (app w)))
  /\ dispatched w w1
     = [mkPending (Post "/chat" (Json (JObj [("query", JStr (inputValue (app w)))])))
                  KChat]
  /\ forall (w2 : World) (k : nat) (r : Request) (o : Outcome) (now2 : Z),
       nth_error (inflight w2) k = Some (mkPending r KChat) ->
       let w3 := step w2 (Settle k o now2) in
       exists t : Entry,
         messages (app w3) = (messages (app w2) ++ [t])%list
         /\ (type t = assistant \/ type t = error)
         /\ (forall e, o = Rejected e -> type t = error)
         /\ (forall d, o = Resolved d -> nullish d = false -> type t = assistant)
         /\ inflight w3 = remove_nth k (inflight w2).
Proof.
  intros Hne w1. subst w1.
  apply str_falsy_false in Hne.
  split; [| split; [| split]].
  - run_handler. rewrite Hne. reflexivity.
  - unfold count_type. run_handler. rewrite Hne. cbn [snd app messages].
    rewrite filter_app, length_app. cbn. lia.
  - run_handler. rewrite Hne. simpl. apply dispatched_app.
  - intros w2 k r o now2 Hk w3. subst w3.
    unfold step, exec, handle, bind, take. rewrite Hk. cbn [resume].
    set (w2' := mkWorld (app w2) (remove_nth k (inflight w2)) (console w2)).
    destruct (chat_resume_world o now2 w2') as [t [Hw Ht]].
    unfold exec in Hw. rewrite Hw. exists t. cbn.
    split; [reflexivity |].
    destruct o as [d | e].
    + destruct (nullish d) eqn:Hd; subst t; cbn;
        repeat split; auto; try discriminate.
      * intros d' Hd' Hn. injection Hd' as <-. congruence.
    + subst t; cbn. repeat split; auto; discriminate.
Qed.

Lemma send_one_user_one_terminal_witness :
  let q := "How much did Ministry of Health spend on COVID relief?" in
  let w := mkWorld (mkApp chat [] q false (JArr []) (Num 0) online) [] [] in
  trim (inputValue (app w)) <> EmptyString
  /\ messages (app (step w (Submit 10))) = [mkEntry 10 user (JStr q) JUndefined 10]
  /\ exists t : Entry,
       messages (app (step (step w (Submit 10)) (Settle 0 (Resolved answer_body) 20)))
       = [mkEntry 10 user (JStr q) JUndefined 10; t]
       /\ type t = assistant.
Proof.
  cbv zeta.
  set (q := "How much did Ministry of Health spend on COVID relief?").
  set (w := mkWorld (mkApp chat [] q false (JArr []) (Num 0) online) [] []).
  assert (Hq : trim (inputValue (app w)) <> EmptyString) by discriminate.
  destruct (send_one_user_one_terminal w 10 Hq) as [Huser [_ [_ Hterm]]].
  split; [exact Hq |]. split; [exact Huser |].
  destruct (Hterm (step w (Submit 10)) 0%nat
                  (Post "/chat" (Json (JObj [("query", JStr q)])))
                  (Resolved answer_body) 20 eq_refl)
    as [t [Hm [_ [_ [Hok _]]]]].
  exists t. split.
  - rewrite Hm, Huser. reflexivity.
  - exact (Hok answer_body eq_refl eq_refl).
Defined.

(** C10, as amended.  On the chat path no status marker is read.  A
    response whose body is neither [null] nor [undefined] appends an
    [assistant] entry whose [content] and [sources] are the body's
    [answer] and [sources] properties as they are ([undefined] when
    missing); an [error] entry is appended exactly when the promise
    rejects or the body is [null] or [undefined], where reading
    [response.data.answer] throws inside the [try]. *)
Theorem chat_terminal_kind (o : Outcome) (now : Z) (w : World) :
  exists t : Entry,
    messages (app (exec (handleSendMessage_resume o now) w))
    = (messages (app w) ++ [t])%list
    /\ (forall d, o = Resolved d -> nullish d = false ->
        t = mkEntry (now + 1) assistant (get_opt d "answer")
                    (get_opt d "sources") now)
    /\ (type t = error <->
        (exists e, o = Rejected e)
        \/ (exists d, o = Resolved d /\ nullish d = true)).
Proof.
  destruct (chat_resume_world o now w) as [t [Hw Ht]].
  exists t. rewrite Hw. cbn. split; [reflexivity |].
  destruct o as [d | e].
  - destruct (nullish d) eqn:Hd; subst t; split.
    + intros d' Hd' Hn. injection Hd' as <-. congruence.
    + split; [intros _; right; exists d; auto | reflexivity].
    + intros d' Hd' _. injection Hd' as <-. reflexivity.
    + cbn. split; [discriminate |].
      intros [[e He] | [d' [Hd' Hn]]]; [discriminate |].
      injection Hd' as <-. congruence.
  - subst t. split; [discriminate |].
    split; [intros _; left; exists e; reflexivity | reflexivity].
Qed.

Lemma chat_terminal_kind_witness :
  let body := JObj [("status", JStr "error"); ("answer", JStr "X amount")] in
  let w := mkWorld (mkApp chat [userMessage "q" 5] EmptyString true (JArr [])
                          (Num 0) online) [] [] in
  messages (app (exec (handleSendMessage_resume (Resolved body) 7) w))
  = [userMessage "q" 5; mkEntry 8 assistant (JStr "X amount") JUndefined 7].
Proof.
  destruct (chat_terminal_kind
              (Resolved (JObj [("status", JStr "error"); ("answer", JStr "X amount")]))
              7
              (mkWorld (mkApp chat [userMessage "q" 5] EmptyString true (JArr [])
                              (Num 0) online) [] []))
    as [t [Hm [Ha _]]].
  cbv zeta. rewrite Hm, (Ha _ eq_refl eq_refl). reflexivity.
Defined.

(** A chat response that resolves with the body [null] appends an
    [error] entry, so it is not the case that every resolved response
    appends an [assistant] entry. *)
Lemma chat_null_body_counterexample :
  ~ (forall (d : jsval) (now : Z) (w : World),
       exists t : Entry,
         messages (app (exec (handleSendMessage_resume (Resolved d) now) w))
         = (messages (app w) ++ [t])%list
         /\ type t = assistant).
Proof.
  intros H. destruct (H JNull 20 boot) as [t [Hm Ht]].
  cbn in Hm. injection Hm as <-. discriminate.
Qed.

(** ** Documents *)

(** C6. When the document-list request fails, the handler only writes
    one line to the console: every state cell, so [documents] and
    [messages] too, and the requests in flight are exactly as before.
    Starting from the empty list, [documents] is still the empty list and
    no entry was appended. *)
Theorem documents_failure_is_silent (e : JsError) (w : World) :
  exec (loadDocuments_resume (Rejected e)) w
  = mkWorld (app w) (inflight w)
            (console w ++ [("Error loading documents:" ++ " " ++ err_message e)%string])
  /\ documents (app (exec (loadDocuments_resume (Rejected e)) boot)) = JArr []
  /\ messages (app (exec (loadDocuments_resume (Rejected e)) boot)) = [].
Proof. repeat split. Qed.

(** The same through the transition function, for any request of the
    registry in flight; a response without the success marker, or with
    no body, changes no cell either. *)
Lemma documents_unchanged_unless_success (w : World) (k : nat) (r : Request)
    (o : Outcome) (now : Z) :
  nth_error (inflight w) k = Some (mkPending r KDocuments) ->
  (forall d, o = Resolved d -> strict_eq_str (get_opt d "status") "success" = false) ->
  app (step w (Settle k o now)) = app w.
Proof.
  intros Hk Ho. unfold step, exec, handle, bind, take. rewrite Hk. cbn [resume].
  destruct o as [d | e]; [| reflexivity].
  specialize (Ho d eq_refl).
  destruct d; try reflexivity.
  run_handler. cbn in *. rewrite Ho. reflexivity.
Qed.

(** On success the cache is replaced by the list received. *)
Lemma documents_replaced_on_success (ps : list (string * jsval)) (w : World) :
  assoc "status" ps = JStr "success" ->
  documents (app (exec (loadDocuments_resume (Resolved (JObj ps))) w))
  = assoc "documents" ps.
Proof. intros H. run_handler. cbn. rewrite H. reflexivity. Qed.

(** ** Health *)

(** The status after the health request settles. *)
Lemma health_resume_status (o : Outcome) (w : World) :
  apiStatus (app (exec (checkApiHealth_resume o) w))
  = match o with
    | Rejected _ => offline
    | Resolved d =>
        if nullish d then offline
        else if strict_eq_str (get_opt d "status") "success" then online
             else apiStatus (app w)
    end.
Proof.
  destruct o as [d | e]; [| reflexivity].
  destruct d; try reflexivity.
  run_handler. cbn. destruct (strict_eq_str (assoc "status" props) "success");
    reflexivity.
Qed.

(** C3, at the input where the code departs from the claim: the server
    answers the health request with a status marker other than
    ["success"].  [checkApiHealth] has no branch for it, and the status
    stays [checking]; it does not become [offline]. *)
Theorem health_other_marker_stays_checking :
  let w := step boot Mount in
  let w' := step w (Settle 0 (Resolved (JObj [("status", JStr "error")])) 0) in
  kont_of_first w = Some KHealth
  /\ apiStatus (app w') = checking
  /\ apiStatus (app w') <> offline.
Proof. repeat split. discriminate. Qed.

(** ** The offline gate *)

(** While the status is [offline] the page offers neither typing nor
    submitting a query. *)
Lemma chat_gated_while_offline (s : AppState) (now : Z) (text : string) :
  apiStatus s = offline ->
  offered s (Submit now) = false /\ offered s (Change text) = false.
Proof.
  intros H. unfold offered, send_button_disabled, text_input_disabled.
  rewrite H. cbn. rewrite !orb_true_r, !andb_false_r. split; reflexivity.
Qed.

(** C2, at the input where the code departs from the claim.  The health
    request fails, so the status is [offline]; the file input, whose
    [disabled] attribute is [isLoading] alone, still accepts a file, and
    [handleFileUpload] dispatches the upload. *)
Theorem upload_offered_while_offline :
  let file := mkFile "budget.pdf" 2048 in
  let w := run boot [Mount; Settle 0 (Rejected network_error) 0; Navigate chat] in
  apiStatus (app w) = offline
  /\ file_input_disabled (app w) = false
  /\ offered (app w) (SelectFile (Some file) 2024) = true
  /\ dispatched w (step w (SelectFile (Some file) 2024))
     = [mkPending
          (Post "/upload"
                (Multipart (mkForm file "Sample Organization"
                                   "Financial Document" 2024)))
          (KUpload [])].
Proof. repeat split. Qed.

(** ** Upload *)

(** When the upload promise rejects, one [error] entry is put after the
    render-time messages; its text carries the [message] of the response
    body when there is one and it is truthy, and [error.message]
    otherwise. *)
Lemma upload_rejection_appends_error (ms : list Entry) (e : JsError) (now : Z)
    (w : World) :
  messages (app (exec (handleFileUpload_resume ms (Rejected e) now) w))
  = (ms ++ [uploadErrorMessage e now])%list.
Proof. reflexivity. Qed.

Lemma failure_text_prefers_server (msg fallback : string) (rest : list (string * jsval)) :
  msg <> EmptyString ->
  failure_text (mkError fallback (Some (JObj (("message", JStr msg) :: rest))))
  = JStr msg.
Proof.
  intros H. unfold failure_text, or_else. cbn.
  apply String.eqb_neq in H. rewrite H. reflexivity.
Qed.

Lemma failure_text_falls_back (fallback : string) :
  failure_text (mkError fallback None) = JStr fallback.
Proof. reflexivity. Qed.

(** C4, at the input where the code departs from the claim.  The upload
    request completes and the body reports a status other than
    ["success"], with a message.  The [if] has no other branch: no entry
    is appended, the message is dropped, and only the [finally] block
    runs. *)
Theorem upload_other_marker_appends_nothing :
  let file := mkFile "budget.pdf" 2048 in
  let body := JObj [("status", JStr "error");
                    ("message", JStr "Unsupported file type")] in
  let w := step (mkWorld (mkApp chat [] EmptyString false (JArr []) (Num 0) online)
                         [] [])
                (SelectFile (Some file) 2024) in
  let w' := step w (Settle 0 (Resolved body) 50) in
  kont_of_first w = Some (KUpload [])
  /\ messages (app w') = []
  /\ count_type error (messages (app w')) = 0%nat
  /\ isLoading (app w') = false
  /\ uploadProgress (app w') = Num 0
  /\ inflight w' = [].
Proof. repeat split. Qed.

(** The same for every body that is an object without the success
    marker, in every state. *)
Lemma upload_other_marker_general (ms : list Entry) (ps : list (string * jsval))
    (now : Z) (w : World) :
  strict_eq_str (assoc "status" ps) "success" = false ->
  messages (app (exec (handleFileUpload_resume ms (Resolved (JObj ps)) now) w))
  = messages (app w).
Proof. intros H. run_handler. cbn. rewrite H. reflexivity. Qed.

(** ** The conversation log under interleaving *)

(** Completions of chat requests keep every entry that is there. *)
Lemma chat_completion_preserves (o : Outcome) (now : Z) (w : World) (x : Entry) :
  In x (messages (app w)) ->
  In x (messages (app (exec (handleSendMessage_resume o now) w))).
Proof.
  intros H. destruct (chat_resume_world o now w) as [t [Hw _]].
  rewrite Hw. cbn. apply in_or_app; left; exact H.
Qed.

(** C5, at the input where the code departs from the claim.  Every event
    of [seed_trace] is one the page offers.  Before its last event the
    log holds the question and its answer; [loadSampleData] then writes
    the [messages] of the render it was called in, followed by its own
    entry, and both earlier entries are gone. *)
Theorem seed_completion_drops_entries :
  admissible boot seed_trace = true
  /\ messages (app (run boot (firstn 7 seed_trace)))
     = [userMessage "How much?" 10;
        aiMessage (JStr "X amount")
                  (JArr [JObj [("title", JStr "Budget 2023");
                               ("organization", JStr "Ministry of Health")]])
                  20]
  /\ messages (app (run boot seed_trace)) = [sampleMessage 30]
  /\ ~ In (userMessage "How much?" 10) (messages (app (run boot seed_trace))).
Proof.
  repeat split.
  intros [H | []]. discriminate H.
Qed.

(** The upload handler has the same defect: it writes back the messages
    of the render it was called in. *)
Lemma upload_completion_uses_closure (ms : list Entry) (ps : list (string * jsval))
    (now : Z) (w : World) :
  assoc "status" ps = JStr "success" ->
  messages (app (exec (handleFileUpload_resume ms (Resolved (JObj ps)) now) w))
  = (ms ++ [successMessage (assoc "filename" ps) (assoc "size" ps) now])%list.
Proof. intros H. run_handler. cbn. rewrite H. reflexivity. Qed.

(** ** Entry identifiers *)

(** Within one send the two identifiers differ as long as the clock did
    not go back between the call and the completion. *)
Lemma same_send_ids_differ (text : string) (o : jsval) (now now' : Z) :
  now <= now' ->
  id (userMessage text now) <> id (aiMessage o o now')
  /\ id (userMessage text now) <> id (chatErrorMessage now').
Proof. intros H. cbn. lia. Qed.

(** C8, at the input where the code departs from the claim.  A question
    is sent at time 1000 and answered within the same millisecond, so the
    answer gets the identifier 1001; the next question is sent at time
    1001 and gets the identifier 1001 too.  Every event is one the page
    offers. *)
Theorem ids_collide :
  admissible boot id_trace = true
  /\ map id (messages (app (run boot id_trace))) = [1000; 1001; 1001]
  /\ map type (messages (app (run boot id_trace))) = [user; assistant; user]
  /\ ~ NoDup (map id (messages (app (run boot id_trace)))).
Proof.
  repeat split.
  intros H. cbn in H.
  inversion H as [| x l Hx Hl]; subst.
  inversion Hl as [| y l' Hy Hl']; subst.
  apply Hy. left. reflexivity.
Qed.

(** ** Binary64 arithmetic *)

Lemma rn_frac_shape (a b : Z) :
  0 < a -> 0 < b ->
  exists m e k PA,
    rn_frac a b = mkF m e
    /\ 0 <= k /\ 0 <= Z.log2 a /\ k = Z.log2 a - e /\ PA = 2 ^ Z.log2 a /\ 0 < PA
    /\ Z.abs (m * (b * PA) - a * 2 ^ k) * 2 <= b * PA
    /\ 2 ^ 52 * (b * PA) <= a * 2 ^ k
    /\ a * 2 ^ k < 2 ^ 53 * (b * PA)
    /\ ((a * 2 ^ k) mod (b * PA) = 0 -> m = a * 2 ^ k / (b * PA)).
Proof.
  intros Ha Hb. unfold rn_frac.
  destruct (a <=? 0) eqn:E; [apply Z.leb_le in E; lia |]. clear E.
  pose proof (Z.log2_spec a Ha) as [Ha1 Ha2].
  pose proof (Z.log2_spec b Hb) as [Hb1 Hb2].
  pose proof (Z.log2_nonneg a) as Hla. pose proof (Z.log2_nonneg b) as Hlb.
  rewrite Z.pow_succ_r in Ha2, Hb2 by assumption.
  set (la := Z.log2 a) in *. set (lb := Z.log2 b) in *.
  set (PA := 2 ^ la) in *. set (PB := 2 ^ lb) in *.
  assert (HPA : 0 < PA) by (apply Z.pow_pos_nonneg; lia).
  assert (HPB : 0 < PB) by (apply Z.pow_pos_nonneg; lia).
  cbv zeta.
  set (s := if b * PA <=? a * PB then 0 else 1).
  assert (Hs : (s = 0 /\ b * PA <= a * PB) \/ (s = 1 /\ a * PB < b * PA)).
  { subst s. destruct (b * PA <=? a * PB) eqn:E;
      [apply Z.leb_le in E | apply Z.leb_gt in E]; lia. }
  assert (Hk : 2 ^ (52 + lb + s) = 2 ^ 52 * PB * 2 ^ s).
  { rewrite !Z.pow_add_r by lia. reflexivity. }
  set (num := a * 2 ^ (52 + lb + s)) in *.
  set (den := b * PA) in *.
  assert (Hden : 0 < den) by (subst den; nia).
  pose proof (Z.div_mod num den ltac:(lia)) as Hdm.
  pose proof (Z.mod_pos_bound num den Hden) as Hr.
  set (q := num / den) in *. set (r := num mod den) in *.
  eexists _, _, (52 + lb + s), PA.
  split; [reflexivity |].
  split; [lia |]. split; [lia |]. split; [lia |]. split; [reflexivity |].
  split; [exact HPA |].
  fold num.
  assert (Hnorm : 2 ^ 52 * den <= num /\ num < 2 ^ 53 * den).
  { subst num den. rewrite Hk.
    destruct Hs as [[-> Hs] | [-> Hs]]; change (2 ^ 0) with 1; change (2 ^ 1) with 2;
      change (2 ^ 52) with 4503599627370496; change (2 ^ 53) with 9007199254740992; nia. }
  split; [| split; [exact (proj1 Hnorm) | split; [exact (proj2 Hnorm) |]]].
  2: { fold den. fold r q. intros Hz.
       replace (2 * r <? den) with true by (symmetry; apply Z.ltb_lt; lia).
       reflexivity. }
  destruct (2 * r <? den) eqn:E1; [apply Z.ltb_lt in E1 | apply Z.ltb_ge in E1].
  - replace (q * den - num) with (- r) by lia. lia.
  - destruct (den <? 2 * r) eqn:E2; [apply Z.ltb_lt in E2 | apply Z.ltb_ge in E2].
    + replace ((q + 1) * den - num) with (den - r) by lia. lia.
    + destruct (Z.even q).
      * replace (q * den - num) with (- r) by lia. lia.
      * replace ((q + 1) * den - num) with (den - r) by lia. lia.
Qed.

Lemma rn_frac_small (a b : Z) :
  0 < a -> 0 < b -> a < 2 ^ 52 * b ->
  exists m e S,
    rn_frac a b = mkF m e /\ e < 0 /\ S = 2 ^ (- e)
    /\ Z.abs (m * b - a * S) * 2 <= b
    /\ 2 ^ 52 * b <= a * S.
Proof.
  intros Ha Hb Hlt.
  destruct (rn_frac_shape a b Ha Hb) as [m [e [k [PA [Hr [Hk [Hla [Hke [HPA [Hpos [Habs [Hlo [Hhi _]]]]]]]]]]]]].
  exists m, e, (2 ^ (- e)). split; [exact Hr |].
  assert (He : e < 0).
  { destruct (Z.lt_ge_cases e 0) as [H | H]; [exact H | exfalso].
    assert (2 ^ k <= PA) by (subst PA; apply Z.pow_le_mono_r; lia).
    assert (0 < 2 ^ k) by (apply Z.pow_pos_nonneg; lia).
    change (2 ^ 52) with 4503599627370496 in *. nia. }
  split; [exact He |]. split; [reflexivity |].
  assert (Hpk : 2 ^ k = PA * 2 ^ (- e)).
  { subst PA k. rewrite <- Z.pow_add_r by lia. apply f_equal. lia. }
  set (S := 2 ^ (- e)) in *.
  assert (HS : 0 < S) by (apply Z.pow_pos_nonneg; lia).
  rewrite Hpk in Habs, Hlo.
  split.
  - replace (m * (b * PA) - a * (PA * S)) with ((m * b - a * S) * PA) in Habs by ring.
    rewrite Z.abs_mul, (Z.abs_eq PA) in Habs by lia.
    nia.
  - change (2 ^ 52) with 4503599627370496 in *. nia.
Qed.

Lemma rn_frac_exact (a b n : Z) :
  0 < b -> a = n * b -> 0 < n < 2 ^ 53 ->
  exists e, e <= 0 /\ rn_frac a b = mkF (n * 2 ^ (- e)) e.
Proof.
  intros Hb -> Hn.
  assert (Ha : 0 < n * b) by nia.
  pose proof (rn_frac_shape (n * b) b Ha Hb)
    as [m [e [k [PA [Hr [Hk [Hla [Hke [HPA [Hpos [_ [Hlo [_ Hex]]]]]]]]]]]]].
  assert (He : e <= 0).
  { destruct (Z.le_gt_cases e 0) as [H | H]; [exact H | exfalso].
    assert (Hpa : PA = 2 ^ k * 2 ^ e).
    { subst PA k. rewrite <- Z.pow_add_r by lia. apply f_equal. lia. }
    assert (0 < 2 ^ k) by (apply Z.pow_pos_nonneg; lia).
    assert (2 <= 2 ^ e).
    { change 2 with (2 ^ 1) at 1. apply Z.pow_le_mono_r; lia. }
    rewrite Hpa in Hlo.
    change (2 ^ 52) with 4503599627370496 in *.
    change (2 ^ 53) with 9007199254740992 in *. nia. }
  exists e. split; [exact He |].
  rewrite Hr. f_equal.
  assert (Hpk : 2 ^ k = 2 ^ (- e) * PA).
  { subst PA k. rewrite <- Z.pow_add_r by lia. apply f_equal. lia. }
  assert (Hnum : n * b * 2 ^ k = (n * 2 ^ (- e)) * (b * PA)) by (rewrite Hpk; ring).
  rewrite Hnum in Hex.
  rewrite Z.div_mul in Hex by nia.
  apply Hex. apply Z.mod_mul. nia.
Qed.

Lemma rn_frac_is_int (a b n : Z) :
  0 < b -> a = n * b -> 0 <= n < 2 ^ 53 -> is_int (rn_frac a b) n.
Proof.
  intros Hb Ha Hn.
  destruct (Z.eq_dec n 0) as [-> | Hnz].
  - subst a. cbn. exists 0, 1. repeat split; lia.
  - destruct (rn_frac_exact a b n Hb Ha ltac:(lia)) as [e [He ->]].
    unfold is_int, as_frac. cbn [expo mant].
    destruct (0 <=? e) eqn:E; [apply Z.leb_le in E | apply Z.leb_gt in E].
    + assert (e = 0) by lia. subst e. exists (n * 2 ^ (- 0) * 2 ^ 0), 1.
      cbn. repeat split; lia.
    + exists (n * 2 ^ (- e)), (2 ^ (- e)).
      repeat split. apply Z.pow_pos_nonneg; lia.
Qed.

Lemma of_N_is_int (n : N) :
  (n < 2 ^ 53)%N -> is_int (of_N n) (Z.of_N n).
Proof.
  intros H. apply rn_frac_is_int; [lia | lia |].
  change (2 ^ 53) with 9007199254740992. change (2 ^ 53)%N with 9007199254740992%N in H.
  lia.
Qed.

Lemma fmul_is_int (x y : f64) (n m : Z) :
  is_int x n -> is_int y m -> 0 <= n -> 0 <= m -> n * m < 2 ^ 53 ->
  is_int (fmul x y) (n * m).
Proof.
  intros [a1 [b1 [H1 [Hb1 Ha1]]]] [a2 [b2 [H2 [Hb2 Ha2]]]] Hn Hm Hnm.
  unfold fmul. rewrite H1, H2.
  apply rn_frac_is_int; [nia | subst; ring | nia].
Qed.

Lemma round_core (A T S h m a b : Z) :
  0 < T -> 0 < b -> T < S -> S = 2 * h ->
  a * T = A * b ->
  Z.abs (m * b - a * S) * 2 <= b ->
  (2 * m + S) / (2 * S) = (2 * A + T) / (2 * T).
Proof.
  intros HT Hb HTS HS Hab Habs.
  assert (HSpos : 0 < S) by lia.
  (* |m - (A/T) S| <= 1/2, cleared of the denominator b *)
  assert (E1 : 0 <= 2 * m * T - 2 * A * S + T).
  { apply (proj1 (Z.mul_nonneg_cancel_l b _ Hb)).
    replace (b * (2 * m * T - 2 * A * S + T))
      with (T * (2 * (m * b) - 2 * (a * S) + b) + 2 * S * (a * T - A * b)) by ring.
    rewrite Hab, Z.sub_diag, Z.mul_0_r, Z.add_0_r.
    apply Z.mul_nonneg_nonneg; lia. }
  assert (E2 : 0 <= 2 * A * S + T - 2 * m * T).
  { apply (proj1 (Z.mul_nonneg_cancel_l b _ Hb)).
    replace (b * (2 * A * S + T - 2 * m * T))
      with (T * (2 * (a * S) + b - 2 * (m * b)) - 2 * S * (a * T - A * b)) by ring.
    rewrite Hab, Z.sub_diag, Z.mul_0_r, Z.sub_0_r.
    apply Z.mul_nonneg_nonneg; lia. }
  set (n := (2 * A + T) / (2 * T)).
  pose proof (Z.div_mod (2 * A + T) (2 * T) ltac:(lia)) as Hdm.
  pose proof (Z.mod_pos_bound (2 * A + T) (2 * T) ltac:(lia)) as Hmod.
  fold n in Hdm.
  set (r := (2 * A + T) mod (2 * T)) in *.
  assert (Hn1 : 0 <= 2 * A - (2 * n - 1) * T) by lia.
  assert (Hn2 : 0 <= (2 * n + 1) * T - 1 - 2 * A) by lia.
  clearbody n r. clear Hdm Hmod Habs Hab.
  symmetry. apply Z.div_unique with (r := 2 * m + S - n * (2 * S)); [| ring].
  left. split.
  - (* (2n-1) S <= 2m *)
    assert (F : 0 <= T * (2 * m - (2 * n - 1) * S + 1)).
    { replace (T * (2 * m - (2 * n - 1) * S + 1))
        with ((2 * m * T - 2 * A * S + T) + S * (2 * A - (2 * n - 1) * T)) by ring.
      apply Z.add_nonneg_nonneg; [exact E1 | apply Z.mul_nonneg_nonneg; lia]. }
    apply (proj1 (Z.mul_nonneg_cancel_l T _ HT)) in F.
    subst S.
    replace ((2 * n - 1) * (2 * h)) with (2 * ((2 * n - 1) * h)) in F by ring.
    replace (n * (2 * (2 * h))) with (2 * ((2 * n - 1) * h) + 2 * h) by ring.
    lia.
  - (* 2m < (2n+1) S *)
    assert (F : 0 < T * ((2 * n + 1) * S - 2 * m)).
    { replace (T * ((2 * n + 1) * S - 2 * m))
        with ((2 * A * S + T - 2 * m * T) + S * ((2 * n + 1) * T - 1 - 2 * A) + (S - T))
        by ring.
      assert (0 <= S * ((2 * n + 1) * T - 1 - 2 * A))
        by (apply Z.mul_nonneg_nonneg; lia).
      lia. }
    apply (proj1 (Z.mul_pos_cancel_l T _ HT)) in F.
    replace (n * (2 * S)) with ((2 * n + 1) * S - S) by ring.
    lia.
Qed.

Lemma js_round_fdiv (p t : f64) (A T : Z) :
  is_int p A -> is_int t T ->
  0 <= A <= 100 * T -> 0 < T < 2 ^ 45 ->
  js_round (fdiv p t) = (2 * A + T) / (2 * T).
Proof.
  intros [a1 [b1 [H1 [Hb1 Ha1]]]] [a2 [b2 [H2 [Hb2 Ha2]]]] HA HT.
  unfold fdiv. rewrite H1, H2.
  change (2 ^ 45) with 35184372088832 in HT.
  destruct (Z.eq_dec A 0) as [-> | HAz].
  - replace (a1 * b2) with 0 by (subst a1; ring).
    change (js_round (rn_frac 0 (b1 * a2))) with 0.
    symmetry. apply Z.div_small. lia.
  - set (a := a1 * b2). set (b := b1 * a2).
    assert (Hb12 : 0 < b1 * b2) by (apply Z.mul_pos_pos; lia).
    assert (Ha : 0 < a).
    { subst a a1. replace (A * b1 * b2) with (A * (b1 * b2)) by ring.
      apply Z.mul_pos_pos; lia. }
    assert (Hb : 0 < b).
    { subst b a2. replace (b1 * (T * b2)) with (T * (b1 * b2)) by ring.
      apply Z.mul_pos_pos; lia. }
    assert (Hab : a * T = A * b) by (subst a b a1 a2; ring).
    assert (Hlt : a < 2 ^ 52 * b).
    { change (2 ^ 52) with 4503599627370496.
      subst a b a1 a2.
      replace (A * b1 * b2) with (A * (b1 * b2)) by ring.
      replace (4503599627370496 * (b1 * (T * b2)))
        with ((4503599627370496 * T) * (b1 * b2)) by ring.
      apply Z.mul_lt_mono_pos_r; lia. }
    destruct (rn_frac_small a b Ha Hb Hlt) as [m [e [S [Hr [He [HS [Habs Hlo]]]]]]].
    rewrite Hr. unfold js_round. cbn [expo mant].
    destruct (0 <=? e) eqn:E; [apply Z.leb_le in E; lia |]. clear E.
    rewrite <- HS.
    change (2 ^ 52) with 4503599627370496 in Hlo.
    assert (HSpos : 0 < S) by (subst S; apply Z.pow_pos_nonneg; lia).
    assert (HST : T < S).
    { (* 2^52 b <= a S and a T = A b with A <= 100 T *)
      assert (G : 0 <= b * (100 * S - 4503599627370496)).
      { replace (b * (100 * S - 4503599627370496))
          with ((a * S - 4503599627370496 * b)
                + S * (100 * b - a)) by ring.
        assert (0 <= 100 * b - a).
        { apply (proj1 (Z.mul_nonneg_cancel_l T _ (proj1 HT))).
          replace (T * (100 * b - a)) with (b * (100 * T - A) + (A * b - a * T)) by ring.
          rewrite Hab, Z.sub_diag, Z.add_0_r. apply Z.mul_nonneg_nonneg; lia. }
        apply Z.add_nonneg_nonneg; [lia | apply Z.mul_nonneg_nonneg; lia]. }
      apply (proj1 (Z.mul_nonneg_cancel_l b _ Hb)) in G. lia. }
    assert (HSev : exists h, S = 2 * h).
    { exists (2 ^ (- e - 1)). subst S.
      replace (- e) with (1 + (- e - 1)) at 1 by lia.
      rewrite Z.pow_add_r by lia. reflexivity. }
    destruct HSev as [h Hh].
    apply (round_core A T S h m a b); try assumption; lia.
Qed.

Lemma rn_frac_mant_pos (a b : Z) :
  0 < a -> 0 < b -> 0 < mant (rn_frac a b).
Proof.
  intros Ha Hb.
  destruct (rn_frac_shape a b Ha Hb)
    as [m [e [k [PA [Hr [Hk [Hla [Hke [HPA [Hpos [Habs [Hlo _]]]]]]]]]]]].
  rewrite Hr. cbn [mant].
  assert (Hden : 0 < b * PA) by (apply Z.mul_pos_pos; assumption).
  change (2 ^ 52) with 4503599627370496 in Hlo.
  destruct (Z.lt_ge_cases 0 m) as [H | H]; [exact H | exfalso].
  assert (m * (b * PA) <= 0) by (apply Z.mul_nonpos_nonneg; lia).
  lia.
Qed.

Lemma as_frac_pos (x : f64) :
  0 < mant x -> 0 < fst (as_frac x) /\ 0 < snd (as_frac x).
Proof.
  intros H. unfold as_frac.
  destruct (0 <=? expo x) eqn:E; [apply Z.leb_le in E | apply Z.leb_gt in E]; cbn.
  - split; [| lia]. apply Z.mul_pos_pos; [exact H | apply Z.pow_pos_nonneg; lia].
  - split; [exact H | apply Z.pow_pos_nonneg; lia].
Qed.

Lemma of_N_mant (n : N) : mant (of_N n) = 0 <-> n = 0%N.
Proof.
  split; intros H.
  - destruct n as [| p]; [reflexivity |].
    pose proof (rn_frac_mant_pos (Z.of_N (N.pos p)) 1 ltac:(lia) ltac:(lia)) as Hp.
    unfold of_N in H. lia.
  - subst n. reflexivity.
Qed.

Lemma fmul_mant_pos (x y : f64) :
  0 < mant x -> 0 < mant y -> 0 < mant (fmul x y).
Proof.
  intros Hx Hy. unfold fmul.
  destruct (as_frac_pos x Hx) as [Ha1 Hb1]. destruct (as_frac_pos y Hy) as [Ha2 Hb2].
  destruct (as_frac x) as [a1 b1]. destruct (as_frac y) as [a2 b2]. cbn in *.
  apply rn_frac_mant_pos; apply Z.mul_pos_pos; assumption.
Qed.

(** ** Upload progress *)

(** The percentage of the specification in integer arithmetic. *)
Lemma progressPercent_spec_div (loaded total : N) :
  (0 < total)%N ->
  progressPercent_spec loaded total
  = (2 * Z.of_N (loaded * 100) + Z.of_N total) / (2 * Z.of_N total).
Proof.
  intros Ht. unfold progressPercent_spec.
  destruct total as [| p]; [lia |].
  assert (E : (inject_Z (Z.of_N loaded) / inject_Z (Z.of_N (N.pos p))
               * inject_Z 100 + (1 # 2)
               == (2 * Z.of_N (loaded * 100) + Z.pos p) # (2 * p))%Q).
  { rewrite N2Z.inj_mul.
    change (Z.of_N 100) with 100. change (Z.of_N (N.pos p)) with (Z.pos p).
    cbv beta iota delta [Qeq Qdiv Qmult Qplus Qinv inject_Z Qnum Qden].
    rewrite !Pos2Z.inj_mul. ring. }
  rewrite E. reflexivity.
Qed.

(** The value the callback computes, [Math.round((loaded * 100) / total)]
    in double arithmetic, is the percentage of the specification when the
    total is below 2^45 bytes and the byte count is not above the total:
    the product is then exact, and the quotient is rounded by less than
    its distance to the nearest point where [Math.round] changes. *)
Lemma round_div_is_spec (loaded total : N) :
  (0 < total)%N -> (total < 2 ^ 45)%N -> (loaded <= total)%N ->
  round_div (fmul (of_N loaded) (of_N 100)) (of_N total)
  = Num (progressPercent_spec loaded total).
Proof.
  intros Ht Hb Hl.
  change (2 ^ 45)%N with 35184372088832%N in Hb.
  unfold round_div.
  destruct (mant (of_N total) =? 0) eqn:E.
  { apply Z.eqb_eq, of_N_mant in E. lia. }
  rewrite progressPercent_spec_div by exact Ht. f_equal.
  rewrite N2Z.inj_mul. change (Z.of_N 100) with 100.
  apply js_round_fdiv.
  - apply fmul_is_int.
    + apply of_N_is_int. change (2 ^ 53)%N with 9007199254740992%N. lia.
    + apply (of_N_is_int 100). reflexivity.
    + lia.
    + lia.
    + change (2 ^ 53) with 9007199254740992. lia.
  - apply of_N_is_int. change (2 ^ 53)%N with 9007199254740992%N. lia.
  - lia.
  - change (2 ^ 45) with 35184372088832. lia.
Qed.

(** Above that bound the two part: for these byte counts the exact
    quotient is below 99.5 and the double quotient is 99.5. *)
Lemma round_div_differs_beyond_bound :
  round_div (fmul (of_N 70016901922346) (of_N 100)) (of_N 70368745650599) = Num 100
  /\ progressPercent_spec 70016901922346 70368745650599 = 99.
Proof. split; vm_compute; reflexivity. Qed.

Lemma progressPercent_spec_mono (a b total : N) :
  (0 < total)%N -> (a <= b)%N ->
  progressPercent_spec a total <= progressPercent_spec b total.
Proof.
  intros Ht Hab. rewrite !progressPercent_spec_div by exact Ht.
  apply Z.div_le_mono; lia.
Qed.

Lemma progressPercent_spec_full (total : N) :
  (0 < total)%N -> progressPercent_spec total total = 100.
Proof.
  intros Ht. rewrite progressPercent_spec_div by exact Ht.
  symmetry. apply Z.div_unique with (r := Z.of_N total); lia.
Qed.

(** A progress event of a transfer in flight writes the cell and nothing
    else. *)
Lemma step_progress (w : World) (k : nat) (r : Request) (ms : list Entry)
    (loaded total : N) :
  nth_error (inflight w) k = Some (mkPending r (KUpload ms)) ->
  step w (Progress k loaded (Some total))
  = mkWorld (mkApp (currentPage (app w)) (messages (app w)) (inputValue (app w))
                   (isLoading (app w)) (documents (app w))
                   (round_div (fmul (of_N loaded) (of_N 100)) (of_N total))
                   (apiStatus (app w)))
            (inflight w) (console w).
Proof. intros H. unfold step, exec, handle. rewrite H. reflexivity. Qed.

Lemma observations_progress (loads : list N) :
  forall (w : World) (k : nat) (r : Request) (ms : list Entry) (total : N),
    nth_error (inflight w) k = Some (mkPending r (KUpload ms)) ->
    observations w (progress_events k total loads)
    = map (fun loaded => round_div (fmul (of_N loaded) (of_N 100)) (of_N total))
          loads
    /\ inflight (run w (progress_events k total loads)) = inflight w.
Proof.
  induction loads as [| l loads IH]; intros w k r ms total H.
  - split; reflexivity.
  - cbn [progress_events map observations run fold_left].
    pose proof (step_progress w k r ms l total H) as Hs.
    destruct (IH (step w (Progress k l (Some total))) k r ms total) as [IHo IHi].
    { rewrite Hs. exact H. }
    unfold progress_events, run in IHo, IHi. split.
    + rewrite IHo. rewrite Hs at 1. reflexivity.
    + rewrite IHi, Hs. reflexivity.
Qed.

(** Whatever way the upload request settles, the [finally] block puts
    the progress back to 0 and lowers the loading flag. *)
Lemma upload_resume_resets (ms : list Entry) (o : Outcome) (now : Z) (w : World) :
  uploadProgress (app (exec (handleFileUpload_resume ms o now) w)) = Num 0
  /\ isLoading (app (exec (handleFileUpload_resume ms o now) w)) = false.
Proof.
  destruct o as [d | e]; [| split; reflexivity].
  destruct d; try (split; reflexivity).
  run_handler. cbn.
  destruct (strict_eq_str (assoc "status" props) "success"); split; reflexivity.
Qed.

Lemma sorted_percent (total : N) (loads : list N) :
  (0 < total)%N ->
  Sorted N.le loads ->
  Sorted Z.le (map (fun loaded => progressPercent_spec loaded total) loads).
Proof.
  intros Ht Hs. induction Hs as [| a l Hl IH Hhd]; cbn; constructor.
  - exact IH.
  - destruct Hhd as [| b l' Hab]; cbn; constructor.
    apply progressPercent_spec_mono; assumption.
Qed.

(** C7, as amended.  For a transfer in flight whose total is not zero
    and below 2^45 bytes, and progress events whose byte counts are not
    above the total, every progress event sets [uploadProgress] to
    round(bytesSent / totalBytes * 100); when the byte counts of
    successive events do not decrease, neither do the values; the last
    value is 100 when the last event reports all the bytes sent; and when
    the request settles, in either way, the value is put back to 0. *)
Theorem progress_values_monotone (w : World) (k : nat) (r : Request)
    (ms : list Entry) (total : N) (loads : list N) :
  nth_error (inflight w) k = Some (mkPending r (KUpload ms)) ->
  (0 < total)%N -> (total < 2 ^ 45)%N ->
  Forall (fun loaded => (loaded <= total)%N) loads ->
  Sorted N.le loads ->
  observations w (progress_events k total loads)
  = map (fun loaded => Num (progressPercent_spec loaded total)) loads
  /\ Sorted Z.le (map (fun loaded => progressPercent_spec loaded total) loads)
  /\ (forall init, loads = (init ++ [total])%list ->
      last (observations w (progress_events k total loads)) NaN = Num 100)
  /\ (forall o now,
      uploadProgress
        (app (step (run w (progress_events k total loads)) (Settle k o now)))
      = Num 0).
Proof.
  intros Hk Ht Hb Hle Hs.
  destruct (observations_progress loads w k r ms total Hk) as [Ho Hi].
  assert (Hobs : observations w (progress_events k total loads)
                 = map (fun loaded => Num (progressPercent_spec loaded total)) loads).
  { rewrite Ho. apply map_ext_in. intros l Hl.
    apply round_div_is_spec; [exact Ht | exact Hb |].
    exact (proj1 (Forall_forall _ _) Hle l Hl). }
  split; [exact Hobs |].
  split; [apply sorted_percent; assumption |].
  split.
  - intros init ->. rewrite Hobs, map_app. cbn [map].
    rewrite last_last, progressPercent_spec_full by exact Ht. reflexivity.
  - intros o now. unfold step, exec, handle, bind, take.
    rewrite Hi, Hk. cbn [resume].
    apply upload_resume_resets.
Qed.

Lemma progress_values_monotone_witness :
  let file := mkFile "budget.pdf" 10485760 in
  let w := step (mkWorld (mkApp chat [] EmptyString false (JArr []) (Num 0) online)
                         [] [])
                (SelectFile (Some file) 2024) in
  observations w (progress_events 0 10485760 [2621440; 5242880; 7864320; 10485760]%N)
  = map (fun loaded => Num (progressPercent_spec loaded 10485760))
        [2621440; 5242880; 7864320; 10485760]%N
  /\ map (fun loaded => progressPercent_spec loaded 10485760)
         [2621440; 5242880; 7864320; 10485760]%N
     = [25; 50; 75; 100].
Proof.
  cbv zeta. split.
  - apply (progress_values_monotone
             (step (mkWorld (mkApp chat [] EmptyString false (JArr []) (Num 0) online)
                            [] [])
                   (SelectFile (Some (mkFile "budget.pdf" 10485760)) 2024))
             0
             (Post "/upload"
                   (Multipart (mkForm (mkFile "budget.pdf" 10485760)
                                      "Sample Organization" "Financial Document" 2024)))
             [] 10485760 [2621440; 5242880; 7864320; 10485760]%N).
    + reflexivity.
    + reflexivity.
    + reflexivity.
    + repeat constructor; discriminate.
    + repeat constructor; discriminate.
  - vm_compute. reflexivity.
Defined.

(** A transfer of 100 bytes whose only progress event reports 25 bytes
    and whose request then succeeds: the values observed are 25 and,
    after the reset, 0.  The success entry is appended, and 100 is never
    observed. *)
Lemma progress_need_not_reach_100 :
  let file := mkFile "budget.pdf" 100 in
  let body := JObj [("status", JStr "success"); ("filename", JStr "budget.pdf");
                    ("size", JNum 100)] in
  let w := step (mkWorld (mkApp chat [] EmptyString false (JArr []) (Num 0) online)
                         [] [])
                (SelectFile (Some file) 2024) in
  let evs := (progress_events 0 100 [25%N] ++ [Settle 0 (Resolved body) 40])%list in
  Sorted N.le [25%N]
  /\ map type (messages (app (run w evs))) = [success]
  /\ observations w evs = [Num 25; Num 0]
  /\ ~ In (Num 100) (observations w evs).
Proof.
  cbv zeta. split; [repeat constructor |].
  split; [reflexivity |]. split; [vm_compute; reflexivity |].
  vm_compute. intros [H | [H | []]]; discriminate.
Qed.

(** * Further properties of the handlers *)

(** ** What a completion can change *)

(** Cell by cell, what the rest of a handler does to the world. *)
Lemma resume_shape (c : Cont) (o : Outcome) (now : Z) (w : World) :
  let w' := exec (resume c o now) w in
  (inflight w' = inflight w \/ inflight w' = (inflight w ++ [refresh_request])%list)
  /\ currentPage (app w') = currentPage (app w)
  /\ inputValue (app w') = inputValue (app w)
  /\ isLoading (app w')
     = match c with KChat | KUpload _ => false | _ => isLoading (app w) end
  /\ match c with KHealth => True | _ => apiStatus (app w') = apiStatus (app w) end
  /\ match c with KDocuments => True | _ => documents (app w') = documents (app w) end
  /\ match c with
     | KChat => exists t, messages (app w') = (messages (app w) ++ [t])%list
     | KUpload ms | KSeed ms =>
         messages (app w') = messages (app w)
         \/ exists t, messages (app w') = (ms ++ [t])%list
     | KHealth | KDocuments => messages (app w') = messages (app w)
     end
  /\ match c with
     | KUpload _ => uploadProgress (app w') = Num 0
     | _ => uploadProgress (app w') = uploadProgress (app w)
     end.
Proof.
  destruct c; (destruct o as [d | e]; [destruct d |]); run_handler; cbn;
    try match goal with
        | |- context [strict_eq_str ?v ?l] => destruct (strict_eq_str v l)
        end;
    cbn; repeat split; eauto.
Qed.

Lemma step_settle (w : World) (k : nat) (o : Outcome) (now : Z) (p : Pending) :
  nth_error (inflight w) k = Some p ->
  step w (Settle k o now)
  = exec (resume (kont p) o now)
         (mkWorld (app w) (remove_nth k (inflight w)) (console w)).
Proof.
  intros H. unfold step, exec, handle, bind, take. rewrite H.
  destruct p; reflexivity.
Qed.

Lemma step_settle_none (w : World) (k : nat) (o : Outcome) (now : Z) :
  nth_error (inflight w) k = None -> step w (Settle k o now) = w.
Proof.
  intros H. unfold step, exec, handle, bind, take. rewrite H.
  destruct w; reflexivity.
Qed.

(** X3. The backend status is written by the completion of a health
    request and by nothing else: if an event changes [apiStatus], the
    event is the settling of a health request that was in flight. *)
Theorem apiStatus_changes_only_on_health (w : World) (ev : Event) :
  apiStatus (app (step w ev)) <> apiStatus (app w) ->
  exists k o now r,
    ev = Settle k o now /\ nth_error (inflight w) k = Some (mkPending r KHealth).
Proof.
  intros Hne. destruct ev as [| p | text | now | file year | | k loaded total | k o now];
    try (exfalso; apply Hne; reflexivity).
  - exfalso; apply Hne. run_handler.
    destruct (str_falsy (trim (inputValue (app w)))); reflexivity.
  - exfalso; apply Hne. destruct file; reflexivity.
  - exfalso; apply Hne. unfold step, exec, handle.
    destruct (nth_error (inflight w) k) as [[r [| | | ms | ms]] |]; reflexivity.
  - destruct (nth_error (inflight w) k) as [[r c] |] eqn:Hk.
    + rewrite (step_settle w k o now _ Hk) in Hne.
      pose proof (resume_shape c o now
                    (mkWorld (app w) (remove_nth k (inflight w)) (console w)))
        as [_ [_ [_ [_ [Hs _]]]]].
      cbn [kont] in Hne.
      destruct c; try (exfalso; apply Hne; exact Hs).
      exists k, o, now, r. split; [reflexivity | exact Hk].
    + rewrite (step_settle_none w k o now Hk) in Hne. exfalso; apply Hne; reflexivity.
Qed.

Lemma apiStatus_changes_only_on_health_witness :
  let w := step boot Mount in
  let ev := Settle 0 (Rejected network_error) 0 in
  apiStatus (app (step w ev)) <> apiStatus (app w)
  /\ exists k o now r,
       ev = Settle k o now /\ nth_error (inflight w) k = Some (mkPending r KHealth).
Proof.
  cbv zeta. split; [discriminate |].
  apply (apiStatus_changes_only_on_health
           (step boot Mount) (Settle 0 (Rejected network_error) 0)).
  discriminate.
Defined.

(** The cache after a document-list request settles. *)
Lemma documents_after_resume (o : Outcome) (w : World) :
  documents (app (exec (loadDocuments_resume o) w))
  = match o with
    | Resolved d =>
        if strict_eq_str (get_opt d "status") "success"
        then get_opt d "documents" else documents (app w)
    | Rejected _ => documents (app w)
    end.
Proof.
  destruct o as [d | e]; [| reflexivity].
  destruct d; try reflexivity.
  run_handler. cbn.
  destruct (strict_eq_str (assoc "status" props) "success"); reflexivity.
Qed.

(** X4. The document cache is written only by the completion of a
    document-list request that resolved with the success marker, and it
    is then replaced as a whole by the [documents] property received
    ([undefined] when the response has none). *)
Theorem documents_change_only_on_success (w : World) (ev : Event) :
  documents (app (step w ev)) <> documents (app w) ->
  exists k d now r,
    ev = Settle k (Resolved d) now
    /\ nth_error (inflight w) k = Some (mkPending r KDocuments)
    /\ strict_eq_str (get_opt d "status") "success" = true
    /\ documents (app (step w ev)) = get_opt d "documents".
Proof.
  intros Hne. destruct ev as [| p | text | now | file year | | k loaded total | k o now];
    try (exfalso; apply Hne; reflexivity).
  - exfalso; apply Hne. run_handler.
    destruct (str_falsy (trim (inputValue (app w)))); reflexivity.
  - exfalso; apply Hne. destruct file; reflexivity.
  - exfalso; apply Hne. unfold step, exec, handle.
    destruct (nth_error (inflight w) k) as [[r [| | | ms | ms]] |]; reflexivity.
  - destruct (nth_error (inflight w) k) as [[r c] |] eqn:Hk.
    + rewrite (step_settle w k o now _ Hk) in *. cbn [kont] in *.
      pose proof (resume_shape c o now
                    (mkWorld (app w) (remove_nth k (inflight w)) (console w)))
        as [_ [_ [_ [_ [_ [Hd _]]]]]].
      destruct c; try (exfalso; apply Hne; exact Hd).
      cbn [resume] in *. rewrite documents_after_resume in *. cbn [app] in *.
      destruct o as [d | e]; [| exfalso; apply Hne; reflexivity].
      destruct (strict_eq_str (get_opt d "status") "success") eqn:Hs;
        [| exfalso; apply Hne; reflexivity].
      exists k, d, now, r. repeat split; assumption.
    + rewrite (step_settle_none w k o now Hk) in Hne. exfalso; apply Hne; reflexivity.
Qed.

Lemma documents_change_only_on_success_witness :
  let w := step boot Mount in
  let body := JObj [("status", JStr "success");
                    ("documents", JArr [JObj [("id", JNum 1)]])] in
  documents (app (step w (Settle 1 (Resolved body) 0))) = JArr [JObj [("id", JNum 1)]].
Proof.
  cbv zeta.
  destruct (documents_change_only_on_success
              (step boot Mount)
              (Settle 1 (Resolved (JObj [("status", JStr "success");
                                         ("documents", JArr [JObj [("id", JNum 1)]])])) 0))
    as [k [d [now [r [Hev [_ [_ Hd]]]]]]].
  - discriminate.
  - rewrite Hd. injection Hev as _ <- _. reflexivity.
Defined.

(** ** One request with the loading flag at a time *)

Lemma In_remove_nth {A} (k : nat) (l : list A) (x : A) :
  In x (remove_nth k l) -> In x l.
Proof.
  revert k; induction l as [| a l IH]; intros k H; [destruct k; exact H |].
  destruct k as [| k]; cbn in H.
  - right; exact H.
  - destruct H as [H | H]; [left; exact H | right; exact (IH k H)].
Qed.

Lemma filter_remove_nth {A} (f : A -> bool) (k : nat) (l : list A) (x : A) :
  nth_error l k = Some x ->
  List.length (filter f l)
  = ((if f x then 1 else 0) + List.length (filter f (remove_nth k l)))%nat.
Proof.
  revert k; induction l as [| a l IH]; intros k H; [destruct k; discriminate |].
  destruct k as [| k]; cbn in H.
  - injection H as ->. cbn. destruct (f x); reflexivity.
  - cbn [remove_nth filter]. specialize (IH k H).
    destruct (f a), (f x); cbn [List.length] in *; lia.
Qed.

Lemma filter_none_In {A} (f : A -> bool) (l : list A) (x : A) :
  List.length (filter f l) = 0%nat -> In x l -> f x = false.
Proof.
  intros Hz Hin. destruct (f x) eqn:Hf; [| reflexivity].
  assert (Hx : In x (filter f l)) by (apply filter_In; split; assumption).
  destruct (filter f l); [destruct Hx | discriminate].
Qed.

Lemma count_busy_app (a : AppState) (c : list string) (l1 l2 : list Pending) :
  count_busy (mkWorld a (l1 ++ l2) c)
  = (List.length (filter busy l1) + List.length (filter busy l2))%nat.
Proof. unfold count_busy; cbn. rewrite filter_app, length_app. reflexivity. Qed.

Lemma step_submit (w : World) (now : Z) :
  str_falsy (trim (inputValue (app w))) = false ->
  step w (Submit now)
  = mkWorld (mkApp (currentPage (app w))
                   (messages (app w) ++ [userMessage (inputValue (app w)) now])
                   EmptyString true (documents (app w)) (uploadProgress (app w))
                   (apiStatus (app w)))
            (inflight w
             ++ [mkPending
                   (Post "/chat" (Json (JObj [("query", JStr (inputValue (app w)))])))
                   KChat])
            (console w).
Proof. intros H. run_handler. rewrite H. reflexivity. Qed.

Lemma step_select (w : World) (f : File) (year : Z) :
  step w (SelectFile (Some f) year)
  = mkWorld (mkApp (currentPage (app w)) (messages (app w)) (inputValue (app w))
                   true (documents (app w)) (Num 0) (apiStatus (app w)))
            (inflight w
             ++ [mkPending
                   (Post "/upload"
                         (Multipart (mkForm f "Sample Organization"
                                            "Financial Document" year)))
                   (KUpload (messages (app w)))])
            (console w).
Proof. reflexivity. Qed.

Lemma offered_submit (s : AppState) (now : Z) :
  offered s (Submit now) = true ->
  isLoading s = false
  /\ str_falsy (trim (inputValue s)) = false
  /\ apiStatus s <> offline
  /\ currentPage s = chat.
Proof.
  unfold offered, send_button_disabled. intros H.
  apply andb_true_iff in H as [Hp H].
  apply negb_true_iff in H.
  apply orb_false_iff in H as [H Ho]. apply orb_false_iff in H as [Hl Hb].
  repeat split; try assumption.
  - intros E; rewrite E in Ho; discriminate.
  - destruct (currentPage s); try discriminate; reflexivity.
Qed.

Lemma offered_select (s : AppState) (file : option File) (year : Z) :
  offered s (SelectFile file year) = true -> isLoading s = false.
Proof.
  unfold offered, file_input_disabled. intros H.
  apply andb_true_iff in H as [_ H]. apply negb_true_iff in H. exact H.
Qed.

Lemma busy_inv_settle (w : World) (k : nat) (o : Outcome) (now : Z) (p : Pending) :
  nth_error (inflight w) k = Some p ->
  BusyInv w ->
  BusyInv (step w (Settle k o now))
  /\ (busy p = true ->
      List.length (filter busy (remove_nth k (inflight w))) = 0%nat).
Proof.
  intros Hk Hinv. unfold BusyInv, count_busy in *.
  rewrite (filter_remove_nth busy k _ p Hk) in Hinv.
  rewrite (step_settle w k o now p Hk).
  set (w0 := mkWorld (app w) (remove_nth k (inflight w)) (console w)).
  pose proof (resume_shape (kont p) o now w0) as [Hin [_ [_ [Hl _]]]].
  cbv zeta in Hin, Hl. rewrite Hl. cbn [app inflight w0] in *.
  assert (Hcount : List.length (filter busy (inflight (exec (resume (kont p) o now) w0)))
                   = List.length (filter busy (remove_nth k (inflight w)))).
  { destruct Hin as [-> | ->]; [reflexivity |].
    rewrite filter_app, length_app. cbn. lia. }
  rewrite Hcount. clear Hcount Hin Hl.
  set (n := List.length (filter busy (remove_nth k (inflight w)))) in *.
  clearbody n. unfold busy in *.
  destruct (kont p), (isLoading (app w)); split;
    intros; try discriminate; lia.
Qed.

Lemma busy_inv_step (w : World) (ev : Event) :
  offered (app w) ev = true -> BusyInv w -> BusyInv (step w ev).
Proof.
  intros Hoff Hinv.
  destruct ev as [| p | text | now | file year | | k loaded total | k o now].
  - unfold BusyInv in *. run_handler. cbn [snd app inflight console].
    rewrite <- app_assoc, count_busy_app. cbn. unfold count_busy in Hinv. lia.
  - exact Hinv.
  - exact Hinv.
  - apply offered_submit in Hoff as [Hl [Hb _]].
    unfold BusyInv in *. rewrite (step_submit w now Hb), count_busy_app.
    rewrite Hl in Hinv. unfold count_busy in Hinv. cbn. lia.
  - destruct file as [f |]; [| destruct w; exact Hinv].
    apply offered_select in Hoff.
    unfold BusyInv in *. rewrite step_select, count_busy_app.
    rewrite Hoff in Hinv. unfold count_busy in Hinv. cbn. lia.
  - unfold BusyInv in *. run_handler. cbn [snd app inflight console].
    rewrite count_busy_app. cbn. unfold count_busy in Hinv. lia.
  - unfold step, exec, handle.
    destruct (nth_error (inflight w) k) as [[r [| | | ms | ms]] |]; exact Hinv.
  - destruct (nth_error (inflight w) k) as [p |] eqn:Hk.
    + exact (proj1 (busy_inv_settle w k o now p Hk Hinv)).
    + rewrite (step_settle_none w k o now Hk). exact Hinv.
Qed.

Lemma busy_inv_run (evs : list Event) :
  forall w, BusyInv w -> admissible w evs = true -> BusyInv (run w evs).
Proof.
  induction evs as [| ev evs IH]; intros w Hinv Hadm; [exact Hinv |].
  cbn in Hadm. apply andb_true_iff in Hadm as [Hoff Hadm].
  cbn. apply IH; [apply busy_inv_step; assumption | exact Hadm].
Qed.

(** X1. Along every trace of events the page offers, starting from the
    page load, at most one chat or upload request is in flight, and the
    loading flag is up exactly when there is one. *)
Theorem one_busy_request_at_a_time (evs : list Event) :
  admissible boot evs = true ->
  (count_busy (run boot evs) <= 1)%nat
  /\ (isLoading (app (run boot evs)) = true <-> count_busy (run boot evs) = 1%nat).
Proof.
  intros Hadm.
  assert (H : BusyInv (run boot evs)) by (apply busy_inv_run; [reflexivity | exact Hadm]).
  unfold BusyInv in H. rewrite H.
  destruct (isLoading (app (run boot evs))); split; try lia; split;
    intros; try reflexivity; discriminate.
Qed.

Lemma one_busy_request_at_a_time_witness :
  admissible boot (firstn 6 seed_trace) = true
  /\ (count_busy (run boot (firstn 6 seed_trace)) <= 1)%nat.
Proof.
  split; [reflexivity |].
  exact (proj1 (one_busy_request_at_a_time (firstn 6 seed_trace) eq_refl)).
Defined.

(** ** The log along the traces the page offers *)

Lemma fresh_extend (w w' : World) (extra : list Pending) (l : list Entry) :
  inflight w' = (inflight w ++ extra)%list ->
  messages (app w') = (messages (app w) ++ l)%list ->
  (l = [] \/ forall p, In p (inflight w) -> is_upload p = false) ->
  (forall p, In p extra ->
     is_seed p = false
     /\ forall ms, kont p = KUpload ms -> ms = messages (app w')) ->
  NoSeed w -> ClosuresFresh w -> NoSeed w' /\ ClosuresFresh w'.
Proof.
  intros Hin Hm Hl Hextra Hns Hcf. split.
  - intros p Hp. rewrite Hin in Hp. apply in_app_or in Hp as [Hp | Hp].
    + exact (Hns p Hp).
    + exact (proj1 (Hextra p Hp)).
  - intros p ms Hp Hk. rewrite Hin in Hp. apply in_app_or in Hp as [Hp | Hp].
    + destruct Hl as [-> | Hnone].
      * rewrite Hm, app_nil_r. exact (Hcf p ms Hp Hk).
      * specialize (Hnone p Hp). unfold is_upload in Hnone.
        rewrite Hk in Hnone. discriminate.
    + exact (proj2 (Hextra p Hp) ms Hk).
Qed.

Lemma idle_no_upload (w : World) :
  BusyInv w -> isLoading (app w) = false ->
  forall p, In p (inflight w) -> is_upload p = false.
Proof.
  intros Hinv Hl p Hp. unfold BusyInv in Hinv. rewrite Hl in Hinv.
  pose proof (filter_none_In busy (inflight w) p Hinv Hp) as Hb.
  unfold busy in Hb. unfold is_upload. destruct (kont p); try reflexivity; discriminate.
Qed.

Lemma fresh_settle (w : World) (k : nat) (o : Outcome) (now : Z) (p : Pending) :
  nth_error (inflight w) k = Some p ->
  BusyInv w -> NoSeed w -> ClosuresFresh w ->
  (NoSeed (step w (Settle k o now)) /\ ClosuresFresh (step w (Settle k o now)))
  /\ exists l, messages (app (step w (Settle k o now))) = (messages (app w) ++ l)%list.
Proof.
  intros Hk Hinv Hns Hcf.
  pose proof (nth_error_In _ _ Hk) as Hp.
  destruct (busy_inv_settle w k o now p Hk Hinv) as [_ Hzero].
  rewrite (step_settle w k o now p Hk).
  set (w0 := mkWorld (app w) (remove_nth k (inflight w)) (console w)).
  pose proof (resume_shape (kont p) o now w0) as [Hin [_ [_ [_ [_ [_ [Hm _]]]]]]].
  cbv zeta in Hin, Hm. cbn [app inflight w0] in Hin, Hm.
  set (w' := exec (resume (kont p) o now) w0) in *.
  assert (Hsub : forall q, In q (inflight w') ->
                           In q (remove_nth k (inflight w)) \/ q = refresh_request).
  { intros q Hq. destruct Hin as [Hin | Hin]; rewrite Hin in Hq; [left; exact Hq |].
    apply in_app_or in Hq as [Hq | [Hq | []]]; [left; exact Hq | right; auto]. }
  assert (Hmsg : (exists l, messages (app w') = (messages (app w) ++ l)%list)
                 /\ (busy p = false -> messages (app w') = messages (app w))).
  { pose proof (Hns p Hp) as Hseed. unfold is_seed in Hseed. unfold busy.
    destruct (kont p) as [| | | ms | ms] eqn:Hc; try discriminate.
    - split; [exists []; rewrite app_nil_r; exact Hm | intros _; exact Hm].
    - split; [exists []; rewrite app_nil_r; exact Hm | intros _; exact Hm].
    - destruct Hm as [t Hm]. split; [exists [t]; exact Hm | discriminate].
    - rewrite (Hcf p ms Hp Hc) in Hm. split; [| discriminate].
      destruct Hm as [Hm | [t Hm]];
        [exists []; rewrite app_nil_r; exact Hm | exists [t]; exact Hm]. }
  destruct Hmsg as [Hap Hsame]. split; [| exact Hap]. split.
  - intros q Hq. destruct (Hsub q Hq) as [Hq' | ->]; [| reflexivity].
    exact (Hns q (In_remove_nth k _ q Hq')).
  - intros q ms Hq Hkq. destruct (Hsub q Hq) as [Hq' | ->]; [| discriminate].
    destruct (busy p) eqn:Hb.
    + pose proof (filter_none_In busy _ q (Hzero eq_refl) Hq') as Hbq.
      unfold busy in Hbq. rewrite Hkq in Hbq. discriminate.
    + rewrite (Hsame eq_refl).
      exact (Hcf q ms (In_remove_nth k _ q Hq') Hkq).
Qed.

Lemma append_step (w : World) (ev : Event) :
  offered (app w) ev = true -> is_sample_click ev = false ->
  BusyInv w -> NoSeed w -> ClosuresFresh w ->
  (NoSeed (step w ev) /\ ClosuresFresh (step w ev))
  /\ exists l, messages (app (step w ev)) = (messages (app w) ++ l)%list.
Proof.
  intros Hoff Hclick Hinv Hns Hcf.
  destruct ev as [| p | text | now | file year | | k loaded total | k o now];
    try discriminate.
  - split; [| exists []; rewrite app_nil_r; reflexivity].
    apply (fresh_extend w _ [mkPending (Get "/health") KHealth; refresh_request] []);
      try assumption.
    + run_handler. cbn [snd inflight]. rewrite <- app_assoc. reflexivity.
    + rewrite app_nil_r. reflexivity.
    + left; reflexivity.
    + intros q [<- | [<- | []]]; split; try reflexivity; discriminate.
  - split; [| exists []; rewrite app_nil_r; reflexivity].
    apply (fresh_extend w _ [] []); try assumption;
      [cbn; rewrite app_nil_r; reflexivity | rewrite app_nil_r; reflexivity
       | left; reflexivity | intros q []].
  - split; [| exists []; rewrite app_nil_r; reflexivity].
    apply (fresh_extend w _ [] []); try assumption;
      [cbn; rewrite app_nil_r; reflexivity | rewrite app_nil_r; reflexivity
       | left; reflexivity | intros q []].
  - apply offered_submit in Hoff as [Hl [Hb _]].
    rewrite (step_submit w now Hb).
    split; [| eexists; reflexivity].
    eapply (fresh_extend w); try eassumption; try reflexivity.
    + right. apply idle_no_upload; assumption.
    + intros q [<- | []]; split; [reflexivity | discriminate].
  - destruct file as [f |].
    + apply offered_select in Hoff. rewrite step_select.
      split; [| exists []; rewrite app_nil_r; reflexivity].
      eapply (fresh_extend w _ _ []); try eassumption; try reflexivity.
      * cbn. rewrite app_nil_r. reflexivity.
      * left; reflexivity.
      * intros q [<- | []]; split; [reflexivity |].
        intros ms Hms. cbn in Hms. injection Hms as <-. reflexivity.
    + replace (step w (SelectFile None year)) with w by (destruct w; reflexivity).
      split; [split; assumption | exists []; rewrite app_nil_r; reflexivity].
  - assert (Hsame : messages (app (step w (Progress k loaded total))) = messages (app w)
                    /\ inflight (step w (Progress k loaded total)) = inflight w).
    { unfold step, exec, handle.
      destruct (nth_error (inflight w) k) as [[r [| | | ms | ms]] |];
        split; reflexivity. }
    destruct Hsame as [Hm Hi].
    split; [| exists []; rewrite app_nil_r; exact Hm].
    apply (fresh_extend w _ [] []); try assumption;
      [rewrite app_nil_r; exact Hi | rewrite app_nil_r; exact Hm
       | left; reflexivity | intros q []].
  - destruct (nth_error (inflight w) k) as [p |] eqn:Hk.
    + apply (fresh_settle w k o now p); assumption.
    + rewrite (step_settle_none w k o now Hk).
      split; [split; assumption | exists []; rewrite app_nil_r; reflexivity].
Qed.

Lemma append_run (evs : list Event) :
  forall w,
    BusyInv w -> NoSeed w -> ClosuresFresh w ->
    admissible w evs = true ->
    forallb (fun ev => negb (is_sample_click ev)) evs = true ->
    (BusyInv (run w evs) /\ NoSeed (run w evs) /\ ClosuresFresh (run w evs))
    /\ exists l, messages (app (run w evs)) = (messages (app w) ++ l)%list.
Proof.
  induction evs as [| ev evs IH]; intros w Hb Hns Hcf Hadm Hno.
  - split; [repeat split; assumption | exists []; rewrite app_nil_r; reflexivity].
  - cbn in Hadm, Hno.
    apply andb_true_iff in Hadm as [Hoff Hadm].
    apply andb_true_iff in Hno as [Hev Hno]. apply negb_true_iff in Hev.
    destruct (append_step w ev Hoff Hev Hb Hns Hcf) as [[Hns' Hcf'] [l1 Hl1]].
    pose proof (busy_inv_step w ev Hoff Hb) as Hb'.
    destruct (IH (step w ev) Hb' Hns' Hcf' Hadm Hno) as [Hinv [l2 Hl2]].
    split; [exact Hinv |].
    exists (l1 ++ l2)%list. cbn [run fold_left] in *.
    unfold run in Hl2. rewrite Hl2, Hl1, app_assoc. reflexivity.
Qed.

Lemma admissible_app (evs1 evs2 : list Event) :
  forall w,
    admissible w (evs1 ++ evs2) = admissible w evs1 && admissible (run w evs1) evs2.
Proof.
  induction evs1 as [| ev evs1 IH]; intros w; [reflexivity |].
  cbn. rewrite IH, andb_assoc. reflexivity.
Qed.

(** X2. Along a trace of events the page offers in which the sample-data
    button is never clicked, the log only grows: what [messages] holds
    at any point of the trace is still there, in the same order and at
    the front, at every later point. *)
Theorem log_grows_without_sample_click (evs1 evs2 : list Event) :
  admissible boot (evs1 ++ evs2) = true ->
  forallb (fun ev => negb (is_sample_click ev)) (evs1 ++ evs2) = true ->
  exists l,
    messages (app (run boot (evs1 ++ evs2)))
    = (messages (app (run boot evs1)) ++ l)%list.
Proof.
  intros Hadm Hno.
  rewrite admissible_app in Hadm. apply andb_true_iff in Hadm as [Ha1 Ha2].
  rewrite forallb_app in Hno. apply andb_true_iff in Hno as [Hn1 Hn2].
  assert (Hboot : BusyInv boot /\ NoSeed boot /\ ClosuresFresh boot).
  { split; [reflexivity |]. split; intros p; cbn; intros; contradiction. }
  destruct Hboot as [Hb [Hns Hcf]].
  destruct (append_run evs1 boot Hb Hns Hcf Ha1 Hn1) as [[Hb1 [Hns1 Hcf1]] _].
  destruct (append_run evs2 (run boot evs1) Hb1 Hns1 Hcf1 Ha2 Hn2) as [_ [l Hl]].
  exists l. unfold run in *. rewrite fold_left_app. exact Hl.
Qed.

Lemma log_grows_without_sample_click_witness :
  admissible boot (firstn 6 upload_trace ++ skipn 6 upload_trace) = true
  /\ exists l,
       messages (app (run boot (firstn 6 upload_trace ++ skipn 6 upload_trace)))
       = (messages (app (run boot (firstn 6 upload_trace))) ++ l)%list.
Proof.
  split; [reflexivity |].
  apply (log_grows_without_sample_click (firstn 6 upload_trace) (skipn 6 upload_trace));
    reflexivity.
Defined.

(** ** Sending *)

(** X5. Whenever the page offers the submit, [handleSendMessage] does
    send: it dispatches one chat request whose query is the input as
    typed, not trimmed, clears the input and raises the loading flag;
    and in the state it leaves, the page offers no submit, no typing and
    no file selection. *)
Theorem offered_submit_sends (w : World) (now : Z) :
  offered (app w) (Submit now) = true ->
  let w' := step w (Submit now) in
  dispatched w w'
  = [mkPending (Post "/chat" (Json (JObj [("query", JStr (inputValue (app w)))])))
               KChat]
  /\ inputValue (app w') = EmptyString
  /\ isLoading (app w') = true
  /\ forall now' text file year,
       offered (app w') (Submit now') = false
       /\ offered (app w') (Change text) = false
       /\ offered (app w') (SelectFile file year) = false.
Proof.
  intros Hoff w'. subst w'.
  apply offered_submit in Hoff as [_ [Hb _]].
  rewrite (step_submit w now Hb).
  split; [apply dispatched_app |].
  split; [reflexivity |]. split; [reflexivity |].
  intros now' text file year. cbn.
  rewrite !andb_false_r. repeat split.
Qed.

Lemma offered_submit_sends_witness :
  let w := mkWorld (mkApp chat [] "  hi " false (JArr []) (Num 0) checking) [] [] in
  offered (app w) (Submit 5) = true
  /\ dispatched w (step w (Submit 5))
     = [mkPending (Post "/chat" (Json (JObj [("query", JStr "  hi ")]))) KChat].
Proof.
  split; [reflexivity |].
  exact (proj1 (offered_submit_sends
                  (mkWorld (mkApp chat [] "  hi " false (JArr []) (Num 0) checking) [] [])
                  5 eq_refl)).
Defined.

Lemma chars_nonempty (s : string) :
  forall ch, In ch (chars s) -> ch <> EmptyString.
Proof.
  induction s as [| c r IH]; intros ch Hin; [destruct Hin |].
  cbn [chars] in Hin.
  destruct (chars r) as [| [| c' ch'] rest].
  - destruct Hin as [<- | []]. discriminate.
  - destruct Hin as [<- | Hin]; [discriminate | apply IH; exact Hin].
  - destruct (is_continuation c').
    + destruct Hin as [<- | Hin]; [discriminate | apply IH; right; exact Hin].
    + destruct Hin as [<- | Hin]; [discriminate | apply IH; exact Hin].
Qed.

Lemma concat_empty (l : list string) :
  (forall ch, In ch l -> ch <> EmptyString) ->
  String.concat EmptyString l = EmptyString -> l = [].
Proof.
  intros Hne H. destruct l as [| x l]; [reflexivity | exfalso].
  pose proof (Hne x (or_introl eq_refl)) as Hx.
  destruct x as [| c x]; [apply Hx; reflexivity |].
  destruct l; cbn in H; discriminate.
Qed.

Lemma dropStart_In (l : list string) (ch : string) :
  In ch (dropStart l) -> In ch l.
Proof.
  induction l as [| a l IH]; intros H; [exact H |].
  cbn [dropStart] in H. destruct (is_space a); [right; apply IH; exact H | exact H].
Qed.

Lemma dropEnd_In (l : list string) (ch : string) :
  In ch (dropEnd l) -> In ch l.
Proof.
  induction l as [| a l IH]; intros H; [exact H |].
  cbn [dropEnd] in H. destruct (dropEnd l) as [| t ts].
  - destruct (is_space a); [destruct H |].
    destruct H as [<- | []]. left; reflexivity.
  - destruct H as [<- | H]; [left; reflexivity | right; apply IH; exact H].
Qed.

Lemma drop_empty_iff (l : list string) :
  dropEnd (dropStart l) = [] <-> forallb is_space l = true.
Proof.
  induction l as [| a l IH]; [split; reflexivity |].
  cbn [dropStart forallb]. destruct (is_space a) eqn:Ha.
  - rewrite IH. reflexivity.
  - split; [| discriminate]. intros H. exfalso.
    cbn [dropEnd] in H. rewrite Ha in H. destruct (dropEnd l); discriminate.
Qed.

Lemma trim_empty_iff (s : string) :
  trim s = EmptyString <-> all_spaces s = true.
Proof.
  unfold trim, all_spaces. rewrite <- drop_empty_iff. split.
  - apply concat_empty. intros ch Hin.
    apply (chars_nonempty s). apply dropStart_In, dropEnd_In. exact Hin.
  - intros ->. reflexivity.
Qed.

(** X6. A submit changes nothing at all exactly when every character
    of the input is white space (the empty input included); any other
    input is sent. *)
Theorem send_is_noop_iff_all_spaces (w : World) (now : Z) :
  step w (Submit now) = w <-> all_spaces (inputValue (app w)) = true.
Proof.
  rewrite <- trim_empty_iff, <- str_falsy_true.
  destruct (str_falsy (trim (inputValue (app w)))) eqn:Hb.
  - split; [reflexivity | intros _].
    run_handler. rewrite Hb. destruct w; reflexivity.
  - split; [| discriminate]. intros H. exfalso.
    rewrite (step_submit w now Hb) in H.
    apply (f_equal (fun x => List.length (messages (app x)))) in H.
    cbn in H. rewrite length_app in H. cbn in H. lia.
Qed.

(** ** Upload and sample-data completions *)

Lemma dispatched_ext (w w' : World) (ps : list Pending) :
  inflight w' = (inflight w ++ ps)%list -> dispatched w w' = ps.
Proof.
  intros H. unfold dispatched. rewrite H, skipn_app, skipn_all, Nat.sub_diag.
  reflexivity.
Qed.

Lemma dispatched_none (w w' : World) :
  inflight w' = inflight w -> dispatched w w' = [].
Proof. intros H. unfold dispatched. rewrite H. apply skipn_all. Qed.



(** X8. The sample-data handler reads nothing of the response: whenever
    its request resolves, it dispatches one document-list request and
    writes the render-time messages followed by the notice; when the
    request is rejected it only logs, so no entry tells the user of the
    failure and no cell changes. *)
Theorem sample_data_outcomes (ms : list Entry) (o : Outcome) (now : Z) (w : World) :
  let w' := exec (loadSampleData_resume ms o now) w in
  match o with
  | Resolved _ =>
      dispatched w w' = [refresh_request]
      /\ messages (app w') = (ms ++ [sampleMessage now])%list
      /\ console w' = console w
  | Rejected e =>
      app w' = app w
      /\ dispatched w w' = []
      /\ console w'
         = (console w ++ [("Error loading sample data:" ++ " " ++ err_message e)%string])%list
  end.
Proof.
  cbv zeta. destruct o as [d | e].
  - split; [apply dispatched_ext; reflexivity | split; reflexivity].
  - split; [reflexivity |].
    split; [apply dispatched_none; reflexivity | reflexivity].
Qed.



(** ** The progress value and the progress bar *)

(** X10. For a total that is not zero and below 2^45 bytes and a byte
    count not above it, the callback stores a whole number between 0 and
    100, and the progress bar is shown exactly while at least 0.5 % and
    less than 99.5 % of the bytes are reported sent. *)
Theorem progress_between_0_and_100 (loaded total : N) (w : World) :
  (0 < total)%N -> (total < 2 ^ 45)%N -> (loaded <= total)%N ->
  let w' := exec (onUploadProgress loaded (Some total)) w in
  exists z,
    uploadProgress (app w') = Num z
    /\ 0 <= z <= 100
    /\ (progress_bar_shown (app w') = true
        <-> (total <= 200 * loaded /\ 200 * loaded < 199 * total)%N).
Proof.
  intros Ht Hb Hl w'. subst w'.
  exists (progressPercent_spec loaded total).
  assert (Hv : uploadProgress (app (exec (onUploadProgress loaded (Some total)) w))
               = Num (progressPercent_spec loaded total)).
  { change (uploadProgress (app (exec (onUploadProgress loaded (Some total)) w)))
      with (round_div (fmul (of_N loaded) (of_N 100)) (of_N total)).
    apply round_div_is_spec; assumption. }
  split; [exact Hv |].
  unfold progress_bar_shown. rewrite Hv.
  rewrite progressPercent_spec_div by exact Ht. rewrite N2Z.inj_mul.
  change (Z.of_N 100) with 100.
  set (q := (2 * (Z.of_N loaded * 100) + Z.of_N total) / (2 * Z.of_N total)).
  assert (Hq0 : 0 <= q) by (apply Z.div_pos; lia).
  assert (Hq100 : q < 101) by (apply Z.div_lt_upper_bound; lia).
  assert (Hpos : 0 < q <-> (total <= 200 * loaded)%N).
  { split; intros H.
    - assert (~ q <= 0) as Hn by lia.
      destruct (N.le_gt_cases total (200 * loaded)) as [Hle | Hgt]; [exact Hle |].
      exfalso. apply Hn. apply Z.lt_succ_r. apply Z.div_lt_upper_bound; lia.
    - apply Z.div_str_pos. lia. }
  assert (Hlt : q < 100 <-> (200 * loaded < 199 * total)%N).
  { split; intros H.
    - destruct (N.lt_ge_cases (200 * loaded) (199 * total)) as [Hc | Hc]; [exact Hc |].
      exfalso. assert (100 <= q) by (apply Z.div_le_lower_bound; lia). lia.
    - apply Z.div_lt_upper_bound; lia. }
  split; [lia |].
  rewrite andb_true_iff, !Z.ltb_lt. tauto.
Qed.

Lemma progress_between_0_and_100_witness :
  exists z,
    uploadProgress (app (exec (onUploadProgress 2621440 (Some 10485760%N)) boot)) = Num z
    /\ 0 <= z <= 100.
Proof.
  destruct (progress_between_0_and_100 2621440 10485760 boot eq_refl eq_refl)
    as [z [Hz [Hb _]]].
  - discriminate.
  - exists z. split; assumption.
Defined.

(** X11. A progress event whose total is zero or missing stores a value
    that is not a number of the range (not-a-number, or infinity when
    bytes were sent of a total of zero), and with it the progress bar is
    not shown. *)
Theorem progress_without_total_hides_bar (loaded : N) (total : option N) (w : World) :
  total = None \/ total = Some 0%N ->
  let w' := exec (onUploadProgress loaded total) w in
  uploadProgress (app w')
  = (match total with
     | Some _ => if (loaded =? 0)%N then NaN else Infinity
     | None => NaN
     end)
  /\ progress_bar_shown (app w') = false.
Proof.
  intros [-> | ->] w'; subst w'.
  - split; reflexivity.
  - change (uploadProgress (app (exec (onUploadProgress loaded (Some 0%N)) w)))
      with (round_div (fmul (of_N loaded) (of_N 100)) (of_N 0)).
    unfold progress_bar_shown.
    change (uploadProgress (app (exec (onUploadProgress loaded (Some 0%N)) w)))
      with (round_div (fmul (of_N loaded) (of_N 100)) (of_N 0)).
    unfold round_div. change (mant (of_N 0) =? 0) with true. cbv iota.
    destruct loaded as [| p].
    + split; reflexivity.
    + assert (Hp : 0 < mant (fmul (of_N (N.pos p)) (of_N 100))).
      { apply fmul_mant_pos.
        - apply rn_frac_mant_pos; lia.
        - vm_compute. reflexivity. }
      replace (mant (fmul (of_N (N.pos p)) (of_N 100)) =? 0) with false
        by (symmetry; apply Z.eqb_neq; lia).
      split; reflexivity.
Qed.

Lemma progress_without_total_hides_bar_witness :
  progress_bar_shown (app (exec (onUploadProgress 0 (Some 0%N)) boot)) = false.
Proof.
  exact (proj2 (progress_without_total_hides_bar 0 (Some 0%N) boot (or_intror eq_refl))).
Defined.

Lemma uploads_inv_step (w : World) (ev : Event) :
  (uploadProgress (app w) = Num 0
   \/ (0 < List.length (filter is_upload (inflight w)))%nat) ->
  uploadProgress (app (step w ev)) = Num 0
  \/ (0 < List.length (filter is_upload (inflight (step w ev))))%nat.
Proof.
  intros Hinv.
  destruct ev as [| p | text | now | file year | | k loaded total | k o now].
  - destruct Hinv as [H | H]; [left; exact H | right].
    run_handler. cbn [snd inflight]. rewrite !filter_app, !length_app. lia.
  - exact Hinv.
  - exact Hinv.
  - run_handler. destruct (str_falsy (trim (inputValue (app w)))); cbn [snd app inflight];
      [exact Hinv |].
    destruct Hinv as [H | H]; [left; exact H | right].
    cbn. rewrite filter_app, length_app. lia.
  - destruct file as [f |]; [left; reflexivity | destruct w; exact Hinv].
  - destruct Hinv as [H | H]; [left; exact H | right].
    run_handler. cbn [snd inflight]. rewrite filter_app, length_app. lia.
  - unfold step, exec, handle.
    destruct (nth_error (inflight w) k) as [[r c] |] eqn:Hk; [| exact Hinv].
    destruct c; try exact Hinv.
    right. cbn. rewrite (filter_remove_nth is_upload k _ _ Hk). cbn. lia.
  - destruct (nth_error (inflight w) k) as [p |] eqn:Hk.
    + rewrite (step_settle w k o now p Hk).
      set (w0 := mkWorld (app w) (remove_nth k (inflight w)) (console w)).
      pose proof (resume_shape (kont p) o now w0) as [Hin [_ [_ [_ [_ [_ [_ Hu]]]]]]].
      cbv zeta in Hin, Hu. cbn [app inflight w0] in Hin, Hu.
      destruct (kont p) eqn:Hc; try (left; exact Hu).
      all: destruct Hinv as [H | H]; [left; rewrite Hu; exact H | right].
      all: rewrite (filter_remove_nth is_upload k _ p Hk) in H.
      all: unfold is_upload in H at 1; rewrite Hc in H; cbn in H.
      all: destruct Hin as [-> | ->]; [exact H |].
      all: rewrite filter_app, length_app; lia.
    + rewrite (step_settle_none w k o now Hk). exact Hinv.
Qed.

(** X12. From the page load on, whatever the events, the progress
    value differs from 0 only while an upload request is in flight; so
    the progress bar is never shown without one. *)
Theorem progress_bar_needs_upload (evs : list Event) :
  progress_bar_shown (app (run boot evs)) = true ->
  exists p, In p (inflight (run boot evs)) /\ is_upload p = true.
Proof.
  intros Hshown.
  assert (Hinv : forall evs w,
             (uploadProgress (app w) = Num 0
              \/ (0 < List.length (filter is_upload (inflight w)))%nat) ->
             uploadProgress (app (run w evs)) = Num 0
             \/ (0 < List.length (filter is_upload (inflight (run w evs))))%nat).
  { clear. induction evs as [| ev evs IH]; intros w H; [exact H |].
    cbn. apply IH. apply uploads_inv_step. exact H. }
  destruct (Hinv evs boot (or_introl eq_refl)) as [H | H].
  - unfold progress_bar_shown in Hshown. rewrite H in Hshown. discriminate.
  - destruct (filter is_upload (inflight (run boot evs))) as [| p l] eqn:Hf;
      [cbn in H; lia |].
    assert (Hp : In p (filter is_upload (inflight (run boot evs))))
      by (rewrite Hf; left; reflexivity).
    apply filter_In in Hp. exists p. exact Hp.
Qed.

Lemma progress_bar_needs_upload_witness :
  let evs := [Navigate chat; SelectFile (Some (mkFile "budget.pdf" 100)) 2024;
              Progress 0 25 (Some 100%N)] in
  progress_bar_shown (app (run boot evs)) = true
  /\ exists p, In p (inflight (run boot evs)) /\ is_upload p = true.
Proof.
  cbv zeta. split; [reflexivity |].
  apply (progress_bar_needs_upload
           [Navigate chat; SelectFile (Some (mkFile "budget.pdf" 100)) 2024;
            Progress 0 25 (Some 100%N)]).
  reflexivity.
Defined.

(** ** What the pages show *)

Lemma map_throwing_total {A B} (f : A -> JsError + B) (g : A -> B) (items : list A) :
  Forall (fun x => f x = inr (g x)) items ->
  map_throwing f items = inr (map g items).
Proof.
  induction 1 as [| x l Hx Hl IH]; [reflexivity |].
  cbn. rewrite Hx, IH. reflexivity.
Qed.



(** X14. A document-list response that carries the success marker but
    no [documents] property (or [null] there) is stored all the same:
    the cache becomes [undefined] or [null], and from then on
    [renderDocuments] throws when it reads the length. *)
Theorem missing_documents_breaks_page (d : jsval) (w : World) :
  strict_eq_str (get_opt d "status") "success" = true ->
  nullish (get_opt d "documents") = true ->
  let s := app (exec (loadDocuments_resume (Resolved d)) w) in
  documents s = get_opt d "documents"
  /\ exists e, renderDocuments s = inl e.
Proof.
  intros Hs Hn s. subst s. rewrite documents_after_resume, Hs.
  split; [reflexivity |].
  unfold renderDocuments. rewrite documents_after_resume, Hs.
  destruct (get_opt d "documents"); try discriminate; eexists; reflexivity.
Qed.

Lemma missing_documents_breaks_page_witness :
  exists e,
    renderDocuments
      (app (exec (loadDocuments_resume (Resolved (JObj [("status", JStr "success")])))
                 boot))
    = inl e.
Proof.
  exact (proj2 (missing_documents_breaks_page
                  (JObj [("status", JStr "success")]) boot eq_refl eq_refl)).
Defined.

(** X15. The sources block of the entry a chat response produces.  For
    an array of sources, the empty one included, the block is rendered
    with one line per source, title and organization as received and in
    the order received; when [sources] is missing or otherwise falsy
    there is no block; when it is truthy and not an array, rendering the
    entry throws. *)
Theorem sources_block_of_response (ps : list (string * jsval)) (now : Z) (w : World) :
  exists t,
    messages (app (exec (handleSendMessage_resume (Resolved (JObj ps)) now) w))
    = (messages (app w) ++ [t])%list
    /\ (forall items,
          assoc "sources" ps = JArr items ->
          Forall (fun src => nullish src = false) items ->
          render_sources t
          = inr (SourcesBlock
                   (map (fun src => (get_opt src "title", get_opt src "organization"))
                        items)))
    /\ (truthy (assoc "sources" ps) = false ->
        render_sources t = inr (Bare (assoc "sources" ps)))
    /\ (truthy (assoc "sources" ps) = true ->
        (forall items, assoc "sources" ps <> JArr items) ->
        exists e, render_sources t = inl e).
Proof.
  exists (aiMessage (assoc "answer" ps) (assoc "sources" ps) now).
  split; [reflexivity |].
  unfold render_sources. cbn [sources aiMessage].
  split; [| split].
  - intros items Hi Hall. rewrite Hi. cbn [truthy].
    rewrite (map_throwing_total source_line
               (fun src => (get_opt src "title", get_opt src "organization"))).
    + reflexivity.
    + eapply Forall_impl; [| exact Hall].
      intros src Hn. destruct src; try discriminate; reflexivity.
  - intros Hf. rewrite Hf. reflexivity.
  - intros Ht Hna. rewrite Ht.
    destruct (assoc "sources" ps) as [| | b | z | s | items | qs];
      try (eexists; reflexivity).
    exfalso. exact (Hna items eq_refl).
Qed.

Lemma sources_block_of_response_witness :
  exists t,
    messages (app (exec (handleSendMessage_resume (Resolved answer_body) 20) boot)) = [t]
    /\ render_sources t
       = inr (SourcesBlock [(JStr "Budget 2023", JStr "Ministry of Health")]).
Proof.
  destruct (sources_block_of_response
              [("answer", JStr "X amount");
               ("sources", JArr [JObj [("title", JStr "Budget 2023");
                                       ("organization", JStr "Ministry of Health")]])]
              20 boot)
    as [t [Hm [Hblock _]]].
  exists t. split; [exact Hm |].
  rewrite (Hblock _ eq_refl); [reflexivity |].
  repeat constructor.
Defined.

(** X16. The status indicator reads Online exactly when the status is
    [online].  While the status is still [checking] it reads Offline,
    although nothing is gated: with no request loading the text input is
    enabled, and the home page shows no offline warning. *)
Theorem indicator_reads_offline_while_checking (s : AppState) :
  (status_indicator s = "üü¢ Online" <-> apiStatus s = online)
  /\ (apiStatus s = checking -> isLoading s = false ->
      status_indicator s = "üî¥ Offline"
      /\ text_input_disabled s = false
      /\ file_input_disabled s = false
      /\ offline_warning_shown s = false).
Proof.
  unfold status_indicator, text_input_disabled, file_input_disabled,
    offline_warning_shown.
  split.
  - destruct (apiStatus s); cbn; split; intros H; try reflexivity; discriminate.
  - intros -> ->. repeat split.
Qed.

Lemma indicator_reads_offline_while_checking_witness :
  status_indicator initial = "üî¥ Offline" /\ text_input_disabled initial = false.
Proof.
  destruct (proj2 (indicator_reads_offline_while_checking initial) eq_refl eq_refl)
    as [Hi [Ht _]].
  split; assumption.
Defined.

(** ** The status after the first probe *)

Lemma no_health_step (w : World) (ev : Event) :
  NoHealth w -> is_mount ev = false ->
  NoHealth (step w ev) /\ apiStatus (app (step w ev)) = apiStatus (app w).
Proof.
  intros Hnh Hm.
  assert (Hext : forall w' extra,
             inflight w' = (inflight w ++ extra)%list ->
             (forall q, In q extra -> kont q <> KHealth) -> NoHealth w').
  { intros w' extra Hi Hex q Hq. rewrite Hi in Hq.
    apply in_app_or in Hq as [Hq | Hq]; [exact (Hnh q Hq) | exact (Hex q Hq)]. }
  destruct ev as [| p | text | now | file year | | k loaded total | k o now];
    try discriminate.
  - split; [exact Hnh | reflexivity].
  - split; [exact Hnh | reflexivity].
  - run_handler. destruct (str_falsy (trim (inputValue (app w)))); cbn [snd app].
    + split; [exact Hnh | reflexivity].
    + split; [| reflexivity].
      eapply Hext; [reflexivity |]. intros q [<- | []]. discriminate.
  - destruct file as [f |].
    + rewrite step_select. split; [| reflexivity].
      eapply Hext; [reflexivity |]. intros q [<- | []]. discriminate.
    + replace (step w (SelectFile None year)) with w by (destruct w; reflexivity).
      split; [exact Hnh | reflexivity].
  - split; [| reflexivity].
    eapply Hext; [reflexivity |]. intros q [<- | []]. discriminate.
  - unfold step, exec, handle.
    destruct (nth_error (inflight w) k) as [[r [| | | ms | ms]] |];
      split; try exact Hnh; reflexivity.
  - destruct (nth_error (inflight w) k) as [p |] eqn:Hk.
    + rewrite (step_settle w k o now p Hk).
      set (w0 := mkWorld (app w) (remove_nth k (inflight w)) (console w)).
      pose proof (resume_shape (kont p) o now w0) as [Hin [_ [_ [_ [Hs _]]]]].
      cbv zeta in Hin, Hs. cbn [app inflight w0] in Hin, Hs.
      pose proof (Hnh p (nth_error_In _ _ Hk)) as Hp.
      split.
      * intros q Hq.
        assert (Hq' : In q (remove_nth k (inflight w)) \/ q = refresh_request).
        { destruct Hin as [Hin | Hin]; rewrite Hin in Hq; [left; exact Hq |].
          apply in_app_or in Hq as [Hq | [Hq | []]]; [left; exact Hq | right; auto]. }
        destruct Hq' as [Hq' | ->]; [| discriminate].
        exact (Hnh q (In_remove_nth k _ q Hq')).
      * destruct (kont p); try exact Hs. exfalso. apply Hp. reflexivity.
    + rewrite (step_settle_none w k o now Hk). split; [exact Hnh | reflexivity].
Qed.

(** X17. The status is probed once, on load.  From a state with no
    health request in flight, no sequence of events short of a new page
    load changes [apiStatus]; in particular, once it is [offline] the
    page never again offers typing or submitting a query. *)
Theorem status_is_final_after_probe (w : World) (evs : list Event) :
  NoHealth w ->
  forallb (fun ev => negb (is_mount ev)) evs = true ->
  apiStatus (app (run w evs)) = apiStatus (app w)
  /\ (apiStatus (app w) = offline ->
      forall now text,
        offered (app (run w evs)) (Submit now) = false
        /\ offered (app (run w evs)) (Change text) = false).
Proof.
  intros Hnh Hno.
  assert (H : NoHealth (run w evs) /\ apiStatus (app (run w evs)) = apiStatus (app w)).
  { revert w Hnh Hno. induction evs as [| ev evs IH]; intros w Hnh Hno.
    - split; [exact Hnh | reflexivity].
    - cbn in Hno. apply andb_true_iff in Hno as [Hev Hno].
      apply negb_true_iff in Hev.
      destruct (no_health_step w ev Hnh Hev) as [Hnh' Hs].
      destruct (IH (step w ev) Hnh' Hno) as [Hnh'' Hs'].
      cbn. split; [exact Hnh'' |]. unfold run in Hs'. rewrite Hs', Hs. reflexivity. }
  destruct H as [_ Hs]. split; [exact Hs |].
  intros Hoff now text. apply chat_gated_while_offline. rewrite Hs. exact Hoff.
Qed.

Lemma status_is_final_after_probe_witness :
  let w := run boot [Mount; Settle 0 (Rejected network_error) 0; Navigate chat] in
  let evs := [Settle 0 (Resolved (JObj [("status", JStr "success")])) 5;
              SelectFile (Some (mkFile "budget.pdf" 2048)) 2024] in
  apiStatus (app (run w evs)) = offline.
Proof.
  cbv zeta.
  refine (eq_trans
            (proj1 (status_is_final_after_probe
                      (run boot [Mount; Settle 0 (Rejected network_error) 0; Navigate chat])
                      [Settle 0 (Resolved (JObj [("status", JStr "success")])) 5;
                       SelectFile (Some (mkFile "budget.pdf" 2048)) 2024]
                      _ eq_refl))
            eq_refl).
  intros p [<- | []]. discriminate.
Defined.

(** X18. The error entry of the chat path does not depend on what went
    wrong: a rejection of any kind, with or without a response and
    whatever message the server sent, and a resolved response without a
    body all append the same entry, with the fixed text about the
    connection. *)
Theorem chat_error_is_uniform (o : Outcome) (now : Z) (w : World) :
  (forall d, o = Resolved d -> nullish d = true) ->
  exec (handleSendMessage_resume o now) w
  = exec (handleSendMessage_resume (Rejected network_error) now) w
  /\ messages (app (exec (handleSendMessage_resume o now) w))
     = (messages (app w)
        ++ [mkEntry (now + 1) error
              (JStr "Error: Could not connect to backend. Please check if the server is running.")
              JUndefined now])%list.
Proof.
  intros Hd. destruct o as [d | e].
  - specialize (Hd d eq_refl). destruct d; try discriminate; split; reflexivity.
  - split; reflexivity.
Qed.

Lemma chat_error_is_uniform_witness :
  let e := mkError "Request failed with status code 500"
                   (Some (JObj [("message", JStr "index unavailable")])) in
  map content (messages (app (exec (handleSendMessage_resume (Rejected e) 7) boot)))
  = [JStr chat_error_text].
Proof.
  cbv zeta.
  rewrite (proj2 (chat_error_is_uniform
                    (Rejected (mkError "Request failed with status code 500"
                                       (Some (JObj [("message", JStr "index unavailable")]))))
                    7 boot ltac:(discriminate))).
  reflexivity.
Defined.
